(** * IndirectForth: the virtual machine of [Forth.cpp]

    A shallow embedding of the indirect-threaded Forth engine: the byte
    memory, the three 16-bit registers, the typed accessors [Mem], [PStack]
    and [RStack], the push and pop helpers, the 35 native words, the table
    [NativeFuncs] and the body of the dispatch loop of [main].

    Conventions.
    - Integers are [Z]; every conversion to a fixed-width C++ type is
      written out ([to_uint16], [to_int16], [to_int8], [to_int32]).
    - [int] is 32 bits wide (the source targets MSVC: [__cdecl]), so that
      [uint16_t] operands are promoted to [int] and never overflow it.
    - Multi-byte objects are little-endian, as the bytes of [Init] are
      (a code field holding opcode 1 is written [1, 0]).
    - An access outside the 65536 bytes of [Memory], an index outside
      [NativeFuncs] and a division by zero are undefined behaviour in the
      source; they are the [None] of the monad [M]. *)

From Stdlib Require Import ZArith List Lia Bool.
Import ListNotations.
Local Open Scope Z_scope.

(** ** Fixed-width integer types *)

(** The instantiations of the template parameter [T] that occur in the
    source: [uint16_t], [int16_t], [int8_t], and [int] (by deduction, see
    [DOVAR]). *)
Inductive ctype : Type := U16 | I16 | I8 | I32.

Definition nbytes (T : ctype) : nat :=
  match T with
  | U16 | I16 => 2%nat
  | I8 => 1%nat
  | I32 => 4%nat
  end.

Definition sizeof (T : ctype) : Z := Z.of_nat (nbytes T).

Definition to_uint16 (z : Z) : Z := z mod 65536.
Definition to_int16 (z : Z) : Z := (z + 32768) mod 65536 - 32768.
Definition to_int8 (z : Z) : Z := (z + 128) mod 256 - 128.
Definition to_int32 (z : Z) : Z := (z + 2147483648) mod 4294967296 - 2147483648.

(** Conversion of an integer value to type [T] (modular, as every compiler
    the source can be built with does it). *)
Definition convert (T : ctype) (z : Z) : Z :=
  match T with
  | U16 => to_uint16 z
  | I16 => to_int16 z
  | I8 => to_int8 z
  | I32 => to_int32 z
  end.

(** ** Memory *)

(** [Memory] is an array of 65536 bytes; it is modelled by the function
    from an index to the byte stored there, only indices in [0, 65536)
    being ever accessed. *)
Definition memory : Type := Z -> Z.

Definition MEMORY_SIZE : Z := 65536.

Definition set_byte (m : memory) (i b : Z) : memory :=
  fun a => if a =? i then b else m a.

(** The [n] bytes from index [i] on, read as a little-endian number. *)
Fixpoint read_le (m : memory) (i : Z) (n : nat) : Z :=
  match n with
  | O => 0
  | S k => m i + 256 * read_le m (i + 1) k
  end.

(** The [n] low bytes of [v] (two's complement), written from index [i] on. *)
Fixpoint write_le (m : memory) (i : Z) (n : nat) (v : Z) : memory :=
  match n with
  | O => m
  | S k => write_le (set_byte m i (v mod 256)) (i + 1) k (v / 256)
  end.

Definition in_bounds (i : Z) (T : ctype) : bool :=
  (0 <=? i) && (i + sizeof T <=? MEMORY_SIZE).

(** [*(T* )(&Memory[i])] read, and assigned to. *)
Definition load (T : ctype) (m : memory) (i : Z) : option Z :=
  if in_bounds i T then Some (convert T (read_le m i (nbytes T))) else None.

Definition store (T : ctype) (m : memory) (i v : Z) : option memory :=
  if in_bounds i T then Some (write_le m i (nbytes T) v) else None.

(** ** Machine state *)

(** The globals [Memory], [IP], [RSP] and [PSP], and the two console
    streams: [cin] holds the characters [std::wcin] has still to deliver,
    [cout] the characters written to [std::wcout], latest first. *)
Record State : Type := mkState {
  Memory : memory;
  IP : Z;
  RSP : Z;
  PSP : Z;
  cin : list Z;
  cout : list Z
}.

Definition set_Memory (s : State) (m : memory) : State :=
  mkState m (IP s) (RSP s) (PSP s) (cin s) (cout s).
Definition set_IP (s : State) (v : Z) : State :=
  mkState (Memory s) v (RSP s) (PSP s) (cin s) (cout s).
Definition set_RSP (s : State) (v : Z) : State :=
  mkState (Memory s) (IP s) v (PSP s) (cin s) (cout s).
Definition set_PSP (s : State) (v : Z) : State :=
  mkState (Memory s) (IP s) (RSP s) v (cin s) (cout s).

(** The ranges of [uint16_t] (the registers, addresses) and of [int16_t]
    (signed cells). *)
Definition is_uint16 (z : Z) : Prop := 0 <= z < 65536.
Definition is_int16 (z : Z) : Prop := -32768 <= z < 32768.

(** The state [main] starts the loop in, for a given content of memory:
    [IP = 0x0000], [RSP = 0x0000], [PSP = 0x1000]. *)
Definition initial (m : memory) (input : list Z) : State :=
  mkState m 0 0 4096 input [].

Definition zero_memory : memory := fun _ => 0.

(** ** The monad of native code: state passing, [None] for undefined
    behaviour *)

Definition M (A : Type) : Type := State -> option (A * State).

Definition ret {A} (a : A) : M A := fun s => Some (a, s).

Definition bind {A B} (c : M A) (k : A -> M B) : M B :=
  fun s => match c s with
           | Some (a, s') => k a s'
           | None => None
           end.

Definition undefined {A} : M A := fun _ => None.

Notation "x <- c ;; k" := (bind c (fun x => k))
  (at level 61, c at next level, right associativity).
Notation "c ;; k" := (bind c (fun _ => k))
  (at level 61, right associativity).

Definition get {A} (f : State -> A) : M A := fun s => Some (f s, s).
Definition modify (f : State -> State) : M unit := fun s => Some (tt, f s).

Definition lift {A} (o : option A) : M A :=
  fun s => match o with Some a => Some (a, s) | None => None end.

(** The state a native word leaves, when its behaviour is defined. *)
Definition exec {A} (c : M A) (s : State) : option State :=
  match c s with Some (_, s') => Some s' | None => None end.

(** ** Typed accessors *)

(** [Mem<T>(addr)]: the parameter is a [uint16_t], the argument is
    converted to it. *)
Definition Mem_index (addr : Z) : Z := to_uint16 addr.

Definition Mem_rd (T : ctype) (addr : Z) : M Z :=
  fun s => lift (load T (Memory s) (Mem_index addr)) s.

Definition Mem_wr (T : ctype) (addr v : Z) : M unit :=
  fun s => match store T (Memory s) (Mem_index addr) v with
           | Some m => Some (tt, set_Memory s m)
           | None => None
           end.

(** [PStack<T>(offset)] is [Memory[PSP + offset]]: the parameter is an
    [int16_t], and the sum is computed in [int]. *)
Definition PStack_index (s : State) (offset : Z) : Z := PSP s + to_int16 offset.
Definition RStack_index (s : State) (offset : Z) : Z := RSP s + to_int16 offset.

Definition PStack_rd (T : ctype) (offset : Z) : M Z :=
  fun s => lift (load T (Memory s) (PStack_index s offset)) s.

Definition PStack_wr (T : ctype) (offset v : Z) : M unit :=
  fun s => match store T (Memory s) (PStack_index s offset) v with
           | Some m => Some (tt, set_Memory s m)
           | None => None
           end.

Definition RStack_rd (T : ctype) (offset : Z) : M Z :=
  fun s => lift (load T (Memory s) (RStack_index s offset)) s.

Definition RStack_wr (T : ctype) (offset v : Z) : M unit :=
  fun s => match store T (Memory s) (RStack_index s offset) v with
           | Some m => Some (tt, set_Memory s m)
           | None => None
           end.

(** [PStack_Push]: [PStack<T>(PSP) = Value; PSP += sizeof(T);] *)
Definition PStack_Push (T : ctype) (Value : Z) : M unit :=
  p <- get PSP ;;
  PStack_wr T p Value ;;
  p <- get PSP ;;
  modify (fun s => set_PSP s (to_uint16 (p + sizeof T))).

(** [RStack_Push]: [RStack<T>(RSP) = Value; RSP += sizeof(T);] *)
Definition RStack_Push (T : ctype) (Value : Z) : M unit :=
  p <- get RSP ;;
  RStack_wr T p Value ;;
  p <- get RSP ;;
  modify (fun s => set_RSP s (to_uint16 (p + sizeof T))).

(** [PStack_Pop]: [PSP -= sizeof(T); T Value = PStack<T>(PSP); return Value;] *)
Definition PStack_Pop (T : ctype) : M Z :=
  p <- get PSP ;;
  modify (fun s => set_PSP s (to_uint16 (p - sizeof T))) ;;
  p <- get PSP ;;
  Value <- PStack_rd T p ;;
  ret Value.

(** [RStack_Pop]: [RSP -= sizeof(T); T Value = RStack<T>(RSP); return Value;] *)
Definition RStack_Pop (T : ctype) : M Z :=
  p <- get RSP ;;
  modify (fun s => set_RSP s (to_uint16 (p - sizeof T))) ;;
  p <- get RSP ;;
  Value <- RStack_rd T p ;;
  ret Value.

(** ** The native words *)

(** [RStack_Push(IP); IP = Mem<uint16_t>(IP - 2) + 2;] *)
Definition DOCOL : M unit :=
  ip <- get IP ;;
  RStack_Push U16 ip ;;
  ip <- get IP ;;
  target <- Mem_rd U16 (ip - 2) ;;
  modify (fun s => set_IP s (to_uint16 (target + 2))).

(** [PStack_Push(Mem<int16_t>(Mem<uint16_t>(IP - 2) + 2));] *)
Definition DOCON : M unit :=
  ip <- get IP ;;
  target <- Mem_rd U16 (ip - 2) ;;
  c <- Mem_rd I16 (target + 2) ;;
  PStack_Push I16 c.

(** [PStack_Push(Mem<uint16_t>(IP - 2) + 2);] the argument has type [int]
    (a [uint16_t] plus the literal [2]), so [T] is deduced as [int]. *)
Definition DOVAR : M unit :=
  ip <- get IP ;;
  target <- Mem_rd U16 (ip - 2) ;;
  PStack_Push I32 (target + 2).

(** [IP = RStack_Pop<uint16_t>();] *)
Definition EXIT : M unit :=
  v <- RStack_Pop U16 ;;
  modify (fun s => set_IP s v).

(** [PSP -= 2;] *)
Definition DROP : M unit :=
  p <- get PSP ;;
  modify (fun s => set_PSP s (to_uint16 (p - 2))).

(** [std::swap(PStack<uint16_t>(-2), PStack<uint16_t>(-4));] *)
Definition SWAP : M unit :=
  a <- PStack_rd U16 (-2) ;;
  b <- PStack_rd U16 (-4) ;;
  PStack_wr U16 (-2) b ;;
  PStack_wr U16 (-4) a.

(** [PStack_Push(PStack<int16_t>(-2));] *)
Definition DUP : M unit :=
  v <- PStack_rd I16 (-2) ;;
  PStack_Push I16 v.

Definition ROT : M unit :=
  p <- get PSP ;;
  t <- Mem_rd U16 (p - 6) ;;
  a <- Mem_rd U16 (p - 4) ;;
  Mem_wr U16 (p - 6) a ;;
  b <- Mem_rd U16 (p - 2) ;;
  Mem_wr U16 (p - 4) b ;;
  Mem_wr U16 (p - 2) t.

(** [PStack_Push(PStack<int16_t>(-4));] *)
Definition OVER : M unit :=
  v <- PStack_rd I16 (-4) ;;
  PStack_Push I16 v.

(** The shape shared by the binary operators:
    [int16_t Value = PStack_Pop<int16_t>(); PStack<int16_t>(-2) op= Value;]
    the operation is done in [int] and its result converted to [int16_t]
    by the store. *)
Definition binop (op : Z -> Z -> Z) : M unit :=
  Value <- PStack_Pop I16 ;;
  x <- PStack_rd I16 (-2) ;;
  PStack_wr I16 (-2) (op x Value).

Definition ADD : M unit := binop Z.add.
Definition SUB : M unit := binop Z.sub.
Definition MUL : M unit := binop Z.mul.

(** [/] and [%] on [int]: the quotient truncates toward zero ([Z.quot]),
    the remainder has the sign of the dividend ([Z.rem]); a zero divisor is
    undefined. *)
Definition DIVMOD : M unit :=
  a <- PStack_rd I16 (-4) ;;
  b <- PStack_rd I16 (-2) ;;
  if b =? 0 then undefined else
  let Div := to_int16 (Z.quot a b) in
  let Mod := to_int16 (Z.rem a b) in
  PStack_wr I16 (-4) Mod ;;
  PStack_wr I16 (-2) Div.

Definition EQU : M unit := binop (fun x Value => if x =? Value then -1 else 0).
Definition LT : M unit := binop (fun x Value => if x <? Value then -1 else 0).
Definition AND : M unit := binop Z.land.
Definition OR : M unit := binop Z.lor.
Definition XOR : M unit := binop Z.lxor.

(** [PStack<int16_t>(-2) = ~PStack<int16_t>(-2);] *)
Definition INVERT : M unit :=
  x <- PStack_rd I16 (-2) ;;
  PStack_wr I16 (-2) (Z.lnot x).

(** [PStack_Push(Mem<int16_t>(IP)); IP += 2;] *)
Definition LIT : M unit :=
  ip <- get IP ;;
  v <- Mem_rd I16 ip ;;
  PStack_Push I16 v ;;
  ip <- get IP ;;
  modify (fun s => set_IP s (to_uint16 (ip + 2))).

(** [uint16_t addr = PStack_Pop<uint16_t>();
     Mem<int16_t>(addr) = PStack_Pop<int16_t>();] *)
Definition STORE : M unit :=
  addr <- PStack_Pop U16 ;;
  v <- PStack_Pop I16 ;;
  Mem_wr I16 addr v.

Definition FETCH : M unit :=
  addr <- PStack_Pop U16 ;;
  v <- Mem_rd I16 addr ;;
  PStack_Push I16 v.

(** [Mem<int8_t>(addr) = (int8_t)PStack_Pop<int16_t>();] *)
Definition STOREBYTE : M unit :=
  addr <- PStack_Pop U16 ;;
  v <- PStack_Pop I16 ;;
  Mem_wr I8 addr (to_int8 v).

(** [PStack_Push((int16_t)Mem<int8_t>(addr));] *)
Definition FETCHBYTE : M unit :=
  addr <- PStack_Pop U16 ;;
  b <- Mem_rd I8 addr ;;
  PStack_Push I16 (to_int16 b).

(** [std::wcin.get()]: the next character, or [WEOF] at the end of the
    input. *)
Definition WEOF : Z := 65535.

Definition wcin_get : M Z :=
  fun s => match cin s with
           | c :: rest =>
               Some (c, mkState (Memory s) (IP s) (RSP s) (PSP s) rest (cout s))
           | [] => Some (WEOF, s)
           end.

Definition wcout_put (c : Z) : M unit :=
  modify (fun s => mkState (Memory s) (IP s) (RSP s) (PSP s) (cin s)
                           (to_uint16 c :: cout s)).

Definition KEY : M unit :=
  c <- wcin_get ;;
  PStack_Push I16 (to_int16 c).

Definition EMIT : M unit :=
  c <- PStack_Pop I16 ;;
  wcout_put c.

(** [IP += Mem<int16_t>(IP);] *)
Definition BRANCH : M unit :=
  ip <- get IP ;;
  off <- Mem_rd I16 ip ;;
  modify (fun s => set_IP s (to_uint16 (ip + off))).

Definition ZBRANCH : M unit :=
  v <- PStack_Pop I16 ;;
  if v =? 0 then
    ip <- get IP ;;
    off <- Mem_rd I16 ip ;;
    modify (fun s => set_IP s (to_uint16 (ip + off)))
  else
    ip <- get IP ;;
    modify (fun s => set_IP s (to_uint16 (ip + 2))).

Definition TOR : M unit :=
  v <- PStack_Pop I16 ;;
  RStack_Push I16 v.

Definition FROMR : M unit :=
  v <- RStack_Pop I16 ;;
  PStack_Push I16 v.

(** [Mem<int16_t>(addr) += PStack_Pop<int16_t>();] *)
Definition ADD_STORE : M unit :=
  addr <- PStack_Pop U16 ;;
  v <- PStack_Pop I16 ;;
  x <- Mem_rd I16 addr ;;
  Mem_wr I16 addr (x + v).

Definition DSP_FETCH : M unit :=
  p <- get PSP ;;
  PStack_Push U16 p.

Definition DSP_STORE : M unit :=
  v <- PStack_Pop U16 ;;
  modify (fun s => set_PSP s v).

Definition RSP_FETCH : M unit :=
  p <- get RSP ;;
  PStack_Push U16 p.

Definition RSP_STORE : M unit :=
  v <- PStack_Pop U16 ;;
  modify (fun s => set_RSP s v).

Definition NativeFuncs : list (M unit) :=
  [ DOCOL; DOCON; DOVAR; EXIT; DROP; SWAP; DUP; ROT; OVER; ADD; SUB; MUL;
    DIVMOD; EQU; LT; AND; OR; XOR; INVERT; LIT; STORE; FETCH; STOREBYTE;
    FETCHBYTE; KEY; EMIT; BRANCH; ZBRANCH; TOR; FROMR; ADD_STORE;
    DSP_FETCH; DSP_STORE; RSP_FETCH; RSP_STORE ].

(** The call through the table: [NativeFuncs[id]] invoked with no argument;
    an [id] past the end of the table is undefined. *)
Definition call_native (id : Z) : M unit :=
  match nth_error NativeFuncs (Z.to_nat id) with
  | Some f => f
  | None => undefined
  end.

(** ** The dispatch loop *)

(** The body of [while (true)] in [main]:
    [uint16_t id = Mem<uint16_t>(Mem<uint16_t>(IP)); IP += 2;]
    and the call of [NativeFuncs[id]]. *)
Definition cycle : M unit :=
  ip <- get IP ;;
  a <- Mem_rd U16 ip ;;
  id <- Mem_rd U16 a ;;
  ip <- get IP ;;
  modify (fun s => set_IP s (to_uint16 (ip + 2))) ;;
  call_native id.

(** [n] turns of the loop. *)
Fixpoint cycles (n : nat) : M unit :=
  match n with
  | O => ret tt
  | S k => cycle ;; cycles k
  end.

(** ** Derived notions used by the statements *)

(** The index [PSP + offset] of [PStack<T>(PSP)]: the pointer is added to
    its own conversion to [int16_t], which comes to twice the pointer
    modulo 65536, and is always inside the array. *)
Definition doubled (p : Z) : Z := (p + p) mod 65536.

(** The state a push leaves: the value written at the doubled pointer, the
    pointer advanced by the size of the value. *)
Definition PStack_pushed (T : ctype) (v : Z) (s : State) : State :=
  mkState (write_le (Memory s) (doubled (PSP s)) (nbytes T) v)
          (IP s) (RSP s) (to_uint16 (PSP s + sizeof T)) (cin s) (cout s).

Definition RStack_pushed (T : ctype) (v : Z) (s : State) : State :=
  mkState (write_le (Memory s) (doubled (RSP s)) (nbytes T) v)
          (IP s) (to_uint16 (RSP s + sizeof T)) (PSP s) (cin s) (cout s).

(** One cycle of the loop as the specification words it: read [target]
    at [IP], advance [IP] by 2, read [opcode] at [target], invoke the
    primitive of that index. *)
Definition spec_cycle : M unit :=
  ip <- get IP ;;
  target <- Mem_rd U16 ip ;;
  ip <- get IP ;;
  modify (fun s => set_IP s (to_uint16 (ip + 2))) ;;
  opcode <- Mem_rd U16 target ;;
  call_native opcode.

(** ** Concrete machine states *)

(** Both stacks in use: [RSP = 0x0010], [PSP = 0x1000]. *)
Definition stack_state : State :=
  mkState zero_memory 0 16 4096 [] [].

(** A thread cell at 100 followed by an offset cell at 102 holding [-6];
    the loop has consumed the cell at 100. *)
Definition branch_state : State :=
  mkState (write_le (write_le zero_memory 102 2 (-6)) 8192 2 0)
          102 0 4098 [] [].

(** A word whose code field is at [0x2200]: the thread cell at [0x2100]
    holds that address and has just been consumed ([IP = 0x2102]); the body
    cell at [0x2202] holds [-2]; an older cell [0x1234] lies at [0x2002]. *)
Definition body_state : State :=
  mkState (write_le (write_le (write_le zero_memory 8448 2 8704)
                              8706 2 (-2)) 8194 2 4660)
          8450 0 4096 [] [].

(** The parameter-stack cells at [PSP - 4] and [PSP - 2] hold [x] and [y];
    [PSP = 0x1004]. *)
Definition divmod_state (x y : Z) : State :=
  mkState (write_le (write_le zero_memory 4096 2 x) 4098 2 y)
          0 0 4100 [] [].

(** [PSP = 0x1004], the cell at [PSP - 4] holds [x], and the cell that
    [PStack_Pop] reads from there (at [0x2004]) holds [y]. *)
Definition mixed_state (x y : Z) : State :=
  mkState (write_le (write_le zero_memory 4096 2 x) 8196 2 y)
          0 0 4100 [] [].

(** ** Return-stack traffic between a call and its return *)

(** What may run between a [DOCOL] and the [EXIT] that returns from it, as
    far as the return stack goes: a push or a pop of a 16-bit cell, the
    word [>R], a nested [DOCOL] and the [EXIT] of a nested call. *)
Inductive rs_op : Type :=
| OpPush (v : Z)
| OpPop
| OpTOR
| OpCall
| OpReturn.

Definition run_op (o : rs_op) : M unit :=
  match o with
  | OpPush v => RStack_Push U16 v
  | OpPop => RStack_Pop U16 ;; ret tt
  | OpTOR => TOR
  | OpCall => DOCOL
  | OpReturn => EXIT
  end.

Fixpoint run_ops (ops : list rs_op) : M unit :=
  match ops with
  | [] => ret tt
  | o :: rest => run_op o ;; run_ops rest
  end.

Definition is_call (o : rs_op) : bool :=
  match o with
  | OpCall => true
  | _ => false
  end.

Definition pushes (o : rs_op) : bool :=
  match o with
  | OpPush _ | OpTOR | OpCall => true
  | OpPop | OpReturn => false
  end.

(** The cells a return stack holds above a given one before its doubled
    addresses come round to that cell again: 4 bytes of address space per
    cell, 65536 bytes in all. *)
Definition MAX_DEPTH : Z := 16383.

(** [matched depth ops]: starting with [depth] cells above the saved [IP],
    the pushes and pops of [ops] match, never pop the saved cell, never
    hold more than [MAX_DEPTH] cells above it, and end with none. *)
Fixpoint matched (depth : nat) (ops : list rs_op) : bool :=
  match ops with
  | [] => Nat.eqb depth 0
  | o :: rest =>
      if pushes o then (Z.of_nat depth <? MAX_DEPTH) && matched (S depth) rest
      else match depth with
           | O => false
           | S d => matched d rest
           end
  end.

(** The first cycle has run from the initial registers, the thread cell at
    address 0 holding [0x2100], the code field of a colon word ([Memory] is
    zero there, the opcode of [DOCOL]): [IP = 2], [RSP = 0]. *)
Definition first_call_memory : memory := write_le zero_memory 0 2 8448.

Definition first_call_state : State :=
  set_IP (initial first_call_memory []) 2.

(** The thread cell at 100 holds [0x2100], the code field of [BRANCH]
    (opcode 26); the offset cell at 102 holds [-6]; [IP = 100]. *)
Definition branch_thread_state : State :=
  mkState (write_le (write_le (write_le zero_memory 100 2 8448)
                              102 2 (-6)) 8448 2 26)
          100 0 4096 [] [].

(** ** Further notions and states, for the properties of the other words *)

(** The three registers hold 16-bit values. *)
Definition regs16 (s : State) : Prop :=
  is_uint16 (IP s) /\ is_uint16 (RSP s) /\ is_uint16 (PSP s).

(** Three cells [x1], [x2], [x3] at [PSP - 6], [PSP - 4], [PSP - 2], with
    [PSP = 0x1006]. *)
Definition three_cells (x1 x2 x3 : Z) : State :=
  mkState (write_le (write_le (write_le zero_memory 4096 2 x1) 4098 2 x2)
                    4100 2 x3)
          0 0 4102 [] [].

(** A memory image given by 16-bit cells at chosen addresses. *)
Fixpoint cells (l : list (Z * Z)) : memory :=
  match l with
  | [] => zero_memory
  | (a, v) :: rest => write_le (cells rest) a 2 v
  end.

(** Threads at address 100, the code field they name at [0x2100]:
    an inline literal [-5]; a constant word with body 42; a variable word;
    a [BRANCH] to itself (offset [-2]). *)
Definition lit_thread_state : State :=
  mkState (cells [(100, 8448); (102, -5); (8448, 19)]) 100 0 4096 [] [].

Definition const_thread_state : State :=
  mkState (cells [(100, 8448); (8448, 1); (8450, 42)]) 100 0 4096 [] [].

Definition var_thread_state : State :=
  mkState (cells [(100, 8448); (8448, 2); (8450, 7)]) 100 0 4096 [] [].

Definition loop_thread_state : State :=
  mkState (cells [(100, 8448); (102, -2); (8448, 26)]) 100 0 4096 [] [].

(** A thread cell at 300 calls the colon word at [0x2100], whose body is
    the single cell at [0x2102] naming the code field of [EXIT] at
    [0x210C]. *)
Definition call_thread_state : State :=
  mkState (cells [(300, 8448); (8448, 0); (8450, 8460); (8460, 3)])
          300 0 4096 [] [].

(** [keeps c Q]: run from registers in range, [c] leaves registers in range
    and returns a value satisfying [Q]. *)
Definition keeps {A} (c : M A) (Q : A -> Prop) : Prop :=
  forall s a s', regs16 s -> c s = Some (a, s') -> regs16 s' /\ Q a.

(** * Properties *)

(** ** Arithmetic of the conversions *)

Ltac Zify.zify_post_hook ::= Z.to_euclidean_division_equations.

Ltac unfold_conv :=
  unfold is_uint16, is_int16, to_uint16, to_int16, to_int8, to_int32 in *.

Lemma to_uint16_range (z : Z) : is_uint16 (to_uint16 z).
Proof. unfold_conv. lia. Qed.

Lemma to_uint16_id (z : Z) : is_uint16 z -> to_uint16 z = z.
Proof. unfold_conv. lia. Qed.

Lemma to_int16_range (z : Z) : is_int16 (to_int16 z).
Proof. unfold_conv. lia. Qed.

Lemma to_int16_id (z : Z) : is_int16 z -> to_int16 z = z.
Proof. unfold_conv. lia. Qed.

Lemma to_int16_idem_int16 (z : Z) : to_int16 (to_int16 z) = to_int16 z.
Proof. unfold_conv. lia. Qed.

Lemma to_uint16_push_pop (p n : Z) :
  is_uint16 p -> to_uint16 (to_uint16 (p + n) - n) = p.
Proof. unfold_conv. lia. Qed.

(** The index that [PStack<T>(PSP)] and [RStack<T>(RSP)] compute, the
    pointer plus its conversion to [int16_t], is the doubled pointer. *)
Lemma doubled_index (p : Z) : is_uint16 p -> p + to_int16 p = doubled p.
Proof. unfold doubled. unfold_conv. lia. Qed.

Lemma doubled_even_bound (p : Z) : 0 <= doubled p <= 65534.
Proof. unfold doubled. lia. Qed.

Lemma doubled_eq_self (p : Z) : is_uint16 p -> (doubled p = p <-> p = 0).
Proof. unfold doubled. unfold_conv. lia. Qed.

(** ** Reading and writing bytes *)

Lemma write_le_outside (n : nat) : forall (m : memory) (i v a : Z),
  a < i \/ i + Z.of_nat n <= a -> write_le m i n v a = m a.
Proof.
  induction n as [|k IH]; intros m i v a H; simpl.
  - reflexivity.
  - rewrite IH by lia. unfold set_byte.
    destruct (Z.eqb_spec a i); [lia | reflexivity].
Qed.

Lemma read_le_ext (n : nat) : forall (m m' : memory) (i : Z),
  (forall a, i <= a < i + Z.of_nat n -> m a = m' a) ->
  read_le m i n = read_le m' i n.
Proof.
  induction n as [|k IH]; intros m m' i H; simpl.
  - reflexivity.
  - rewrite (H i) by lia. rewrite (IH m m' (i + 1)); [reflexivity|].
    intros a Ha. apply H. lia.
Qed.

Lemma read_le_write_le_same (n : nat) : forall (m : memory) (i v : Z),
  read_le (write_le m i n v) i n = v mod 256 ^ Z.of_nat n.
Proof.
  induction n as [|k IH]; intros m i v.
  - simpl. rewrite Z.mod_1_r. reflexivity.
  - cbn [read_le write_le]. rewrite IH.
    rewrite write_le_outside by lia.
    unfold set_byte. rewrite Z.eqb_refl.
    rewrite Nat2Z.inj_succ, Z.pow_succ_r by lia.
    rewrite Z.rem_mul_r by lia. reflexivity.
Qed.

Lemma read_le_write_le_other (n k : nat) (m : memory) (i j v : Z) :
  j + Z.of_nat k <= i \/ i + Z.of_nat n <= j ->
  read_le (write_le m i n v) j k = read_le m j k.
Proof.
  intros H. apply read_le_ext. intros a Ha.
  apply write_le_outside. lia.
Qed.

Lemma convert_mod (T : ctype) (v : Z) :
  convert T (v mod 256 ^ sizeof T) = convert T v.
Proof.
  destruct T; unfold sizeof; simpl; unfold_conv;
    change (Z.pow_pos 256 2) with 65536;
    change (Z.pow_pos 256 1) with 256;
    change (Z.pow_pos 256 4) with 4294967296; lia.
Qed.

(** What was stored is what is loaded, converted to the type it is loaded
    at, whenever the two types have the same size. *)
Lemma load_store_same (T T' : ctype) (m m' : memory) (i v : Z) :
  nbytes T = nbytes T' ->
  store T m i v = Some m' ->
  load T' m' i = Some (convert T' v).
Proof.
  unfold store, load, in_bounds, sizeof. intros E. rewrite E.
  destruct (_ && _); [|discriminate].
  intros H. injection H as <-.
  rewrite read_le_write_le_same. f_equal. apply (convert_mod T').
Qed.

Lemma load_store_other (T T' : ctype) (m m' : memory) (i j v : Z) :
  j + sizeof T' <= i \/ i + sizeof T <= j ->
  store T m i v = Some m' ->
  load T' m' j = load T' m j.
Proof.
  unfold store, load, sizeof. intros D.
  destruct (in_bounds i T); [|discriminate].
  intros H. injection H as <-.
  rewrite read_le_write_le_other by lia. reflexivity.
Qed.

Lemma store_defined (T : ctype) (m : memory) (i v : Z) :
  0 <= i -> i + sizeof T <= 65536 ->
  store T m i v = Some (write_le m i (nbytes T) v).
Proof.
  intros H1 H2. unfold store, in_bounds, MEMORY_SIZE.
  destruct (Z.leb_spec 0 i); [|lia].
  destruct (Z.leb_spec (i + sizeof T) 65536); [|lia]. reflexivity.
Qed.

Lemma load_defined (T : ctype) (m : memory) (i : Z) :
  0 <= i -> i + sizeof T <= 65536 ->
  load T m i = Some (convert T (read_le m i (nbytes T))).
Proof.
  intros H1 H2. unfold load, in_bounds, MEMORY_SIZE.
  destruct (Z.leb_spec 0 i); [|lia].
  destruct (Z.leb_spec (i + sizeof T) 65536); [|lia]. reflexivity.
Qed.

Lemma load_range_U16 (m : memory) (i v : Z) :
  load U16 m i = Some v -> is_uint16 v.
Proof.
  unfold load. destruct (in_bounds i U16); [|discriminate].
  intros H. injection H as <-. apply to_uint16_range.
Qed.

Lemma load_range_I16 (m : memory) (i v : Z) :
  load I16 m i = Some v -> is_int16 v.
Proof.
  unfold load. destruct (in_bounds i I16); [|discriminate].
  intros H. injection H as <-. apply to_int16_range.
Qed.

(** ** The monad *)

Lemma bind_Some {A B} (c : M A) (k : A -> M B) (s s' : State) (a : A) :
  c s = Some (a, s') -> bind c k s = k a s'.
Proof. intros H. unfold bind. rewrite H. reflexivity. Qed.

Lemma bind_inv {A B} (c : M A) (k : A -> M B) (s : State) (r : B * State) :
  bind c k s = Some r -> exists a s', c s = Some (a, s') /\ k a s' = Some r.
Proof.
  unfold bind. destruct (c s) as [[a s']|]; [|discriminate].
  intros H. exists a, s'. split; [reflexivity | exact H].
Qed.

(** ** Push and pop *)


Lemma PStack_Push_eq (T : ctype) (v : Z) (s : State) :
  is_uint16 (PSP s) -> doubled (PSP s) + sizeof T <= 65536 ->
  PStack_Push T v s = Some (tt, PStack_pushed T v s).
Proof.
  intros Hp Hb. unfold PStack_Push, bind, get, modify, PStack_wr, PStack_index.
  rewrite doubled_index by assumption.
  rewrite store_defined by (pose proof (doubled_even_bound (PSP s)); lia).
  reflexivity.
Qed.

Lemma RStack_Push_eq (T : ctype) (v : Z) (s : State) :
  is_uint16 (RSP s) -> doubled (RSP s) + sizeof T <= 65536 ->
  RStack_Push T v s = Some (tt, RStack_pushed T v s).
Proof.
  intros Hp Hb. unfold RStack_Push, bind, get, modify, RStack_wr, RStack_index.
  rewrite doubled_index by assumption.
  rewrite store_defined by (pose proof (doubled_even_bound (RSP s)); lia).
  reflexivity.
Qed.

Lemma PStack_Pop_eq (T : ctype) (s : State) :
  PStack_Pop T s =
  match load T (Memory s) (doubled (to_uint16 (PSP s - sizeof T))) with
  | Some v => Some (v, set_PSP s (to_uint16 (PSP s - sizeof T)))
  | None => None
  end.
Proof.
  unfold PStack_Pop, bind, get, modify, PStack_rd, PStack_index, lift, ret.
  simpl. rewrite doubled_index by apply to_uint16_range.
  destruct (load T _ _); reflexivity.
Qed.

Lemma RStack_Pop_eq (T : ctype) (s : State) :
  RStack_Pop T s =
  match load T (Memory s) (doubled (to_uint16 (RSP s - sizeof T))) with
  | Some v => Some (v, set_RSP s (to_uint16 (RSP s - sizeof T)))
  | None => None
  end.
Proof.
  unfold RStack_Pop, bind, get, modify, RStack_rd, RStack_index, lift, ret.
  simpl. rewrite doubled_index by apply to_uint16_range.
  destruct (load T _ _); reflexivity.
Qed.

(** A two-byte access at a doubled pointer is always inside the array. *)
Lemma doubled_in_bounds (T : ctype) (p : Z) :
  nbytes T = 2%nat -> doubled p + sizeof T <= 65536.
Proof.
  intros E. unfold sizeof. rewrite E.
  pose proof (doubled_even_bound p). simpl. lia.
Qed.

Lemma load_pushed_cell (T T' : ctype) (m : memory) (i v : Z) :
  nbytes T = nbytes T' -> 0 <= i -> i + sizeof T <= 65536 ->
  load T' (write_le m i (nbytes T) v) i = Some (convert T' v).
Proof.
  intros E H1 H2. apply (load_store_same T T' m); [exact E|].
  apply store_defined; assumption.
Qed.

Lemma load_write_le_other (T' : ctype) (n : nat) (m : memory) (i j v : Z) :
  j + sizeof T' <= i \/ i + Z.of_nat n <= j ->
  load T' (write_le m i n v) j = load T' m j.
Proof.
  intros D. unfold load, sizeof in *.
  rewrite read_le_write_le_other by lia. reflexivity.
Qed.

(** ** The stacks address memory at the doubled pointer *)

Lemma PStack_push_pop (T : ctype) (s : State) (v : Z) :
  nbytes T = 2%nat -> convert T v = v -> is_uint16 (PSP s) ->
  PStack_Pop T (PStack_pushed T v s)
  = Some (v, set_PSP (PStack_pushed T v s) (PSP s)).
Proof.
  intros E Hv Hp. rewrite PStack_Pop_eq. cbn [PSP Memory PStack_pushed].
  rewrite to_uint16_push_pop by assumption.
  pose proof (doubled_even_bound (PSP s)).
  rewrite load_pushed_cell; [rewrite Hv; reflexivity | reflexivity | lia |].
  apply doubled_in_bounds, E.
Qed.

Lemma RStack_push_pop (T : ctype) (s : State) (v : Z) :
  nbytes T = 2%nat -> convert T v = v -> is_uint16 (RSP s) ->
  RStack_Pop T (RStack_pushed T v s)
  = Some (v, set_RSP (RStack_pushed T v s) (RSP s)).
Proof.
  intros E Hv Hp. rewrite RStack_Pop_eq. cbn [RSP Memory RStack_pushed].
  rewrite to_uint16_push_pop by assumption.
  pose proof (doubled_even_bound (RSP s)).
  rewrite load_pushed_cell; [rewrite Hv; reflexivity | reflexivity | lia |].
  apply doubled_in_bounds, E.
Qed.

(** C10, as amended. For every value [p] of a stack pointer, a 16-bit push
    on the parameter stack, and on the return stack, writes the value to
    the two bytes of [Memory] at address [(p + p) mod 65536] and to no other
    byte, then advances the pointer by 2; a pop subtracts 2 and reads at the
    new pointer doubled in the same way; an immediate pop returns the value
    just pushed and restores the pointer. The address written is not the
    pointer [p] itself whenever [p] is not 0. *)
Theorem push_pop_doubled_pointer (T : ctype) (s : State) (v : Z) :
  nbytes T = 2%nat -> convert T v = v ->
  is_uint16 (PSP s) -> is_uint16 (RSP s) ->
  (PStack_Push T v s = Some (tt, PStack_pushed T v s) /\
   load T (Memory (PStack_pushed T v s)) (doubled (PSP s)) = Some v /\
   (forall a, a <> doubled (PSP s) -> a <> doubled (PSP s) + 1 ->
              Memory (PStack_pushed T v s) a = Memory s a) /\
   PSP (PStack_pushed T v s) = to_uint16 (PSP s + 2) /\
   (forall t, PStack_Pop T t =
      match load T (Memory t) (doubled (to_uint16 (PSP t - 2))) with
      | Some x => Some (x, set_PSP t (to_uint16 (PSP t - 2)))
      | None => None
      end) /\
   PStack_Pop T (PStack_pushed T v s)
     = Some (v, set_PSP (PStack_pushed T v s) (PSP s)) /\
   (PSP s <> 0 -> doubled (PSP s) <> PSP s))
  /\
  (RStack_Push T v s = Some (tt, RStack_pushed T v s) /\
   load T (Memory (RStack_pushed T v s)) (doubled (RSP s)) = Some v /\
   (forall a, a <> doubled (RSP s) -> a <> doubled (RSP s) + 1 ->
              Memory (RStack_pushed T v s) a = Memory s a) /\
   RSP (RStack_pushed T v s) = to_uint16 (RSP s + 2) /\
   (forall t, RStack_Pop T t =
      match load T (Memory t) (doubled (to_uint16 (RSP t - 2))) with
      | Some x => Some (x, set_RSP t (to_uint16 (RSP t - 2)))
      | None => None
      end) /\
   RStack_Pop T (RStack_pushed T v s)
     = Some (v, set_RSP (RStack_pushed T v s) (RSP s)) /\
   (RSP s <> 0 -> doubled (RSP s) <> RSP s)).
Proof.
  intros E Hv Hp Hr.
  assert (Es : sizeof T = 2) by (unfold sizeof; rewrite E; reflexivity).
  split.
  - pose proof (doubled_even_bound (PSP s)) as Hb.
    split; [apply PStack_Push_eq; [assumption | apply doubled_in_bounds, E]|].
    split.
    { cbn [Memory PStack_pushed].
      rewrite load_pushed_cell; [rewrite Hv; reflexivity | reflexivity | lia | lia]. }
    split.
    { intros a H1 H2. cbn [Memory PStack_pushed].
      apply write_le_outside. rewrite E. simpl. lia. }
    split; [cbn [PSP PStack_pushed]; rewrite Es; reflexivity|].
    split; [intros t; rewrite PStack_Pop_eq, Es; reflexivity|].
    split; [apply PStack_push_pop; assumption|].
    intros Hn Hd. apply doubled_eq_self in Hd; [contradiction | assumption].
  - pose proof (doubled_even_bound (RSP s)) as Hb.
    split; [apply RStack_Push_eq; [assumption | apply doubled_in_bounds, E]|].
    split.
    { cbn [Memory RStack_pushed].
      rewrite load_pushed_cell; [rewrite Hv; reflexivity | reflexivity | lia | lia]. }
    split.
    { intros a H1 H2. cbn [Memory RStack_pushed].
      apply write_le_outside. rewrite E. simpl. lia. }
    split; [cbn [RSP RStack_pushed]; rewrite Es; reflexivity|].
    split; [intros t; rewrite RStack_Pop_eq, Es; reflexivity|].
    split; [apply RStack_push_pop; assumption|].
    intros Hn Hd. apply doubled_eq_self in Hd; [contradiction | assumption].
Qed.

Lemma push_pop_doubled_pointer_witness :
  (PStack_Push U16 4660 stack_state
   = Some (tt, PStack_pushed U16 4660 stack_state) /\
   load U16 (Memory (PStack_pushed U16 4660 stack_state))
        (doubled (PSP stack_state)) = Some 4660 /\
   (forall a, a <> doubled (PSP stack_state) ->
              a <> doubled (PSP stack_state) + 1 ->
              Memory (PStack_pushed U16 4660 stack_state) a
              = Memory stack_state a) /\
   PSP (PStack_pushed U16 4660 stack_state)
   = to_uint16 (PSP stack_state + 2) /\
   (forall t, PStack_Pop U16 t =
      match load U16 (Memory t) (doubled (to_uint16 (PSP t - 2))) with
      | Some x => Some (x, set_PSP t (to_uint16 (PSP t - 2)))
      | None => None
      end) /\
   PStack_Pop U16 (PStack_pushed U16 4660 stack_state)
   = Some (4660, set_PSP (PStack_pushed U16 4660 stack_state)
                         (PSP stack_state)) /\
   (PSP stack_state <> 0 -> doubled (PSP stack_state) <> PSP stack_state))
  /\
  (RStack_Push U16 4660 stack_state
   = Some (tt, RStack_pushed U16 4660 stack_state) /\
   load U16 (Memory (RStack_pushed U16 4660 stack_state))
        (doubled (RSP stack_state)) = Some 4660 /\
   (forall a, a <> doubled (RSP stack_state) ->
              a <> doubled (RSP stack_state) + 1 ->
              Memory (RStack_pushed U16 4660 stack_state) a
              = Memory stack_state a) /\
   RSP (RStack_pushed U16 4660 stack_state)
   = to_uint16 (RSP stack_state + 2) /\
   (forall t, RStack_Pop U16 t =
      match load U16 (Memory t) (doubled (to_uint16 (RSP t - 2))) with
      | Some x => Some (x, set_RSP t (to_uint16 (RSP t - 2)))
      | None => None
      end) /\
   RStack_Pop U16 (RStack_pushed U16 4660 stack_state)
   = Some (4660, set_RSP (RStack_pushed U16 4660 stack_state)
                         (RSP stack_state)) /\
   (RSP stack_state <> 0 -> doubled (RSP stack_state) <> RSP stack_state)).
Proof.
  apply (push_pop_doubled_pointer U16 stack_state 4660).
  - reflexivity.
  - reflexivity.
  - unfold is_uint16. simpl. lia.
  - unfold is_uint16. simpl. lia.
Defined.

(** The pointer near the top of its range: [0xC000 + 0xC000] wraps to
    [0x8000]. *)
Lemma doubled_examples :
  doubled 4096 = 8192 /\ doubled 49152 = 32768 /\ doubled 65535 = 65534.
Proof. repeat split. Qed.

(** C10 as stated fails at the pointer value 0, the value [RSP] starts
    with: the doubled pointer is the pointer, and the first push on the
    return stack stores its value at the stack-pointer address itself. *)
Lemma RStack_Push_at_zero :
  exists s1,
    RSP (initial zero_memory []) = 0 /\
    RStack_Push U16 8450 (initial zero_memory []) = Some (tt, s1) /\
    doubled (RSP (initial zero_memory [])) = RSP (initial zero_memory []) /\
    Mem_rd U16 (RSP (initial zero_memory [])) s1 = Some (8450, s1).
Proof.
  eexists. split; [reflexivity|]. split; [vm_compute; reflexivity|].
  split; reflexivity.
Qed.

(** ** The dispatch loop *)

(** C1. Every cycle of the dispatch loop reads the 16-bit [target] at
    [IP], advances [IP] by 2, reads the 16-bit [opcode] at [target] and
    invokes entry [opcode] of the primitive table, with no argument: the
    cycle of the source is the cycle of the specification, and the
    primitive runs from the state of the cycle's start with nothing but
    [IP] changed. Where a read falls outside memory or [opcode] outside
    the table, the cycle is undefined. *)
Theorem cycle_dispatch (s : State) :
  cycle s = spec_cycle s /\
  cycle s =
  match load U16 (Memory s) (to_uint16 (IP s)) with
  | Some target =>
      match load U16 (Memory s) (to_uint16 target) with
      | Some opcode =>
          match nth_error NativeFuncs (Z.to_nat opcode) with
          | Some primitive => primitive (set_IP s (to_uint16 (IP s + 2)))
          | None => None
          end
      | None => None
      end
  | None => None
  end.
Proof.
  unfold cycle, spec_cycle, bind, get, modify, Mem_rd, Mem_index, lift,
    call_native, undefined.
  cbn [Memory IP set_IP].
  destruct (load U16 (Memory s) (to_uint16 (IP s))) as [target|];
    [|split; reflexivity].
  destruct (load U16 (Memory s) (to_uint16 target)) as [opcode|];
    [|split; reflexivity].
  destruct (nth_error NativeFuncs (Z.to_nat opcode)); split; reflexivity.
Qed.

(** The table has 35 entries, in the order of the source. *)
Lemma NativeFuncs_length : length NativeFuncs = 35%nat.
Proof. reflexivity. Qed.

Lemma NativeFuncs_body_kinds :
  nth_error NativeFuncs 0 = Some DOCOL /\
  nth_error NativeFuncs 1 = Some DOCON /\
  nth_error NativeFuncs 2 = Some DOVAR /\
  nth_error NativeFuncs 3 = Some EXIT.
Proof. repeat split. Qed.

Lemma NativeFuncs_branches :
  nth_error NativeFuncs 26 = Some BRANCH /\
  nth_error NativeFuncs 27 = Some ZBRANCH.
Proof. repeat split. Qed.

(** ** Frame properties of push and pop *)

Lemma to_uint16_idem (z : Z) : to_uint16 (to_uint16 z) = to_uint16 z.
Proof. unfold_conv. lia. Qed.

Lemma PStack_Push_inv (T : ctype) (v : Z) (s s' : State) (u : unit) :
  PStack_Push T v s = Some (u, s') ->
  IP s' = IP s /\ RSP s' = RSP s /\ PSP s' = to_uint16 (PSP s + sizeof T) /\
  exists m, store T (Memory s) (PStack_index s (PSP s)) v = Some m /\
            Memory s' = m.
Proof.
  unfold PStack_Push, bind, get, modify, PStack_wr.
  destruct (store T (Memory s) (PStack_index s (PSP s)) v) as [m|];
    [|discriminate].
  intros H. injection H as _ <-. cbn. repeat split. exists m.
  split; reflexivity.
Qed.

Lemma RStack_Push_inv (T : ctype) (v : Z) (s s' : State) (u : unit) :
  RStack_Push T v s = Some (u, s') ->
  IP s' = IP s /\ PSP s' = PSP s /\ RSP s' = to_uint16 (RSP s + sizeof T) /\
  exists m, store T (Memory s) (RStack_index s (RSP s)) v = Some m /\
            Memory s' = m.
Proof.
  unfold RStack_Push, bind, get, modify, RStack_wr.
  destruct (store T (Memory s) (RStack_index s (RSP s)) v) as [m|];
    [|discriminate].
  intros H. injection H as _ <-. cbn. repeat split. exists m.
  split; reflexivity.
Qed.

Lemma exec_Some {A} (c : M A) (s s' : State) :
  exec c s = Some s' -> exists a, c s = Some (a, s').
Proof.
  unfold exec. destruct (c s) as [[a t]|]; [|discriminate].
  intros H. injection H as <-. exists a. reflexivity.
Qed.

(** ** Branches *)

(** C7. When the loop has just consumed a branch cell at address [A], so
    that [IP] is [A + 2], and the cell at [A + 2] holds the signed value
    [V]: the unconditional branch sets [IP] to [(A + 2) + V]; the conditional
    branch pops one cell of the parameter stack and sets [IP] to
    [(A + 2) + V] if that cell is zero and to [A + 4] otherwise. Addresses
    are 16-bit, sums are taken modulo 65536; nothing else changes. *)
Theorem branch_offset_convention (s : State) (A V : Z) :
  IP s = to_uint16 (A + 2) ->
  load I16 (Memory s) (to_uint16 (A + 2)) = Some V ->
  BRANCH s = Some (tt, set_IP s (to_uint16 (A + 2 + V))) /\
  exists v,
    PStack_Pop I16 s = Some (v, set_PSP s (to_uint16 (PSP s - 2))) /\
    ZBRANCH s =
    Some (tt, set_IP (set_PSP s (to_uint16 (PSP s - 2)))
                     (if v =? 0 then to_uint16 (A + 2 + V)
                      else to_uint16 (A + 4))).
Proof.
  intros Hip HV.
  assert (E1 : to_uint16 (to_uint16 (A + 2) + V) = to_uint16 (A + 2 + V))
    by (unfold_conv; lia).
  assert (E2 : to_uint16 (to_uint16 (A + 2) + 2) = to_uint16 (A + 4))
    by (unfold_conv; lia).
  split.
  - unfold BRANCH, bind, get, modify, Mem_rd, Mem_index, lift.
    rewrite Hip, to_uint16_idem, HV, E1. reflexivity.
  - pose proof (doubled_even_bound (to_uint16 (PSP s - 2))) as Hb.
    assert (Hl : load I16 (Memory s) (doubled (to_uint16 (PSP s - 2)))
                 = Some (convert I16 (read_le (Memory s)
                           (doubled (to_uint16 (PSP s - 2))) (nbytes I16))))
      by (apply load_defined; [lia | unfold sizeof; simpl; lia]).
    eexists. split.
    + rewrite PStack_Pop_eq. change (sizeof I16) with 2. rewrite Hl.
      reflexivity.
    + unfold ZBRANCH. erewrite bind_Some
        by (rewrite PStack_Pop_eq; change (sizeof I16) with 2;
            rewrite Hl; reflexivity).
      destruct (_ =? 0).
      * unfold bind, get, modify, Mem_rd, Mem_index, lift.
        cbn [IP Memory set_PSP]. rewrite Hip, to_uint16_idem, HV, E1.
        reflexivity.
      * unfold bind, get, modify. cbn [IP set_PSP]. rewrite Hip, E2.
        reflexivity.
Qed.

Lemma branch_offset_convention_witness :
  BRANCH branch_state = Some (tt, set_IP branch_state (to_uint16 (100 + 2 + -6))) /\
  exists v,
    PStack_Pop I16 branch_state
    = Some (v, set_PSP branch_state (to_uint16 (PSP branch_state - 2))) /\
    ZBRANCH branch_state =
    Some (tt, set_IP (set_PSP branch_state (to_uint16 (PSP branch_state - 2)))
                     (if v =? 0 then to_uint16 (100 + 2 + -6)
                      else to_uint16 (100 + 4))).
Proof.
  apply (branch_offset_convention branch_state 100 (-6)); reflexivity.
Defined.

(** The same through the loop: a thread cell at 100 naming the code field
    of [BRANCH], the offset [-6] at 102; one cycle leaves [IP = 96]. *)
Lemma cycle_BRANCH_example :
  option_map IP (exec cycle branch_thread_state) = Some 96.
Proof. reflexivity. Qed.

(** ** The three body kinds *)

Lemma DOCON_eq (s : State) (target c : Z) :
  is_uint16 (PSP s) ->
  load U16 (Memory s) (to_uint16 (IP s - 2)) = Some target ->
  load I16 (Memory s) (to_uint16 (target + 2)) = Some c ->
  DOCON s = Some (tt, PStack_pushed I16 c s).
Proof.
  intros Hp Ht Hc. unfold DOCON, bind, get, Mem_rd, Mem_index, lift.
  rewrite Ht, Hc. apply PStack_Push_eq; [assumption|].
  apply doubled_in_bounds. reflexivity.
Qed.

(** [DOVAR] pushes an [int]: four bytes, and the pointer moves by 4. *)
Lemma DOVAR_eq (s : State) (target : Z) :
  is_uint16 (PSP s) -> doubled (PSP s) + 4 <= 65536 ->
  load U16 (Memory s) (to_uint16 (IP s - 2)) = Some target ->
  DOVAR s = Some (tt, PStack_pushed I32 (target + 2) s) /\
  PSP (PStack_pushed I32 (target + 2) s) = to_uint16 (PSP s + 4).
Proof.
  intros Hp Hb Ht. split; [|reflexivity].
  unfold DOVAR, bind, get, Mem_rd, Mem_index, lift.
  rewrite Ht. apply PStack_Push_eq; assumption.
Qed.

Lemma DOVAR_keeps_IP (s s' : State) : exec DOVAR s = Some s' -> IP s' = IP s.
Proof.
  intros H. apply exec_Some in H as [u H].
  unfold DOVAR in H.
  apply bind_inv in H as (ip & s1 & H1 & H).
  apply bind_inv in H as (t & s2 & H2 & H).
  unfold get in H1. injection H1 as _ <-.
  unfold Mem_rd, lift in H2.
  destruct (load U16 _ _); [|discriminate]. injection H2 as _ <-.
  apply PStack_Push_inv in H. tauto.
Qed.

Lemma DOCOL_sets_IP (s s' : State) :
  exec DOCOL s = Some s' ->
  exists target, load U16 (Memory s') (to_uint16 (IP s - 2)) = Some target /\
                 IP s' = to_uint16 (target + 2).
Proof.
  intros H. apply exec_Some in H as [u H].
  unfold DOCOL in H.
  apply bind_inv in H as (ip & s1 & H1 & H).
  unfold get in H1. injection H1 as <- <-.
  apply bind_inv in H as (u1 & s2 & H2 & H).
  apply RStack_Push_inv in H2 as (Hip & _).
  apply bind_inv in H as (ip & s3 & H3 & H).
  unfold get in H3. injection H3 as <- <-.
  apply bind_inv in H as (t & s4 & H4 & H).
  unfold Mem_rd, Mem_index, lift in H4.
  destruct (load U16 (Memory s2) _) as [t'|] eqn:E; [|discriminate].
  injection H4 as <- <-.
  unfold modify in H. injection H as _ <-.
  exists t'. cbn. rewrite <- Hip. split; [exact E | reflexivity].
Qed.

(** C5. The constant primitive pushes exactly one 16-bit cell, the body
    cell stored at [target + 2] where [target] is the 16-bit value at
    [IP - 2], onto the parameter stack: two bytes are written, [PSP] grows
    by 2 (modulo 65536), an immediate pop returns the body cell, and [IP]
    is unchanged. Of the three body kinds only the colon primitive assigns
    [IP]: the variable primitive leaves it as it is, too, while [DOCOL]
    sets it to the cell at [IP - 2] plus 2 and does change it on some
    state. *)
Theorem DOCON_pushes_body_cell (s : State) (target c : Z) :
  is_uint16 (PSP s) ->
  load U16 (Memory s) (to_uint16 (IP s - 2)) = Some target ->
  load I16 (Memory s) (to_uint16 (target + 2)) = Some c ->
  exists s',
    DOCON s = Some (tt, s') /\
    IP s' = IP s /\ RSP s' = RSP s /\
    PSP s' = to_uint16 (PSP s + 2) /\
    load I16 (Memory s') (doubled (PSP s)) = Some c /\
    (forall a, a <> doubled (PSP s) -> a <> doubled (PSP s) + 1 ->
               Memory s' a = Memory s a) /\
    PStack_Pop I16 s' = Some (c, set_PSP s' (PSP s)) /\
    (forall t, exec DOVAR s = Some t -> IP t = IP s) /\
    (forall t, exec DOCOL s = Some t ->
               exists tg, load U16 (Memory t) (to_uint16 (IP s - 2)) = Some tg /\
                          IP t = to_uint16 (tg + 2)) /\
    (exists t0 t, exec DOCOL t0 = Some t /\ IP t <> IP t0).
Proof.
  intros Hp Ht Hc. exists (PStack_pushed I16 c s).
  assert (Hconv : convert I16 c = c)
    by (apply to_int16_id; eapply load_range_I16; exact Hc).
  pose proof (doubled_even_bound (PSP s)) as Hb.
  split; [eapply DOCON_eq; eassumption|].
  split; [reflexivity|]. split; [reflexivity|]. split; [reflexivity|].
  split.
  { cbn [Memory PStack_pushed].
    rewrite load_pushed_cell;
      [rewrite Hconv; reflexivity | reflexivity | lia | unfold sizeof; simpl; lia]. }
  split.
  { intros a H1 H2. cbn [Memory PStack_pushed].
    apply write_le_outside. simpl. lia. }
  split; [apply PStack_push_pop; [reflexivity | exact Hconv | exact Hp]|].
  split; [intros t; apply DOVAR_keeps_IP|].
  split; [intros t; apply DOCOL_sets_IP|].
  exists body_state. eexists. split; [vm_compute; reflexivity|].
  vm_compute. discriminate.
Qed.

Lemma DOCON_pushes_body_cell_witness :
  exists s',
    DOCON body_state = Some (tt, s') /\
    IP s' = IP body_state /\ RSP s' = RSP body_state /\
    PSP s' = to_uint16 (PSP body_state + 2) /\
    load I16 (Memory s') (doubled (PSP body_state)) = Some (-2) /\
    (forall a, a <> doubled (PSP body_state) ->
               a <> doubled (PSP body_state) + 1 ->
               Memory s' a = Memory body_state a) /\
    PStack_Pop I16 s' = Some (-2, set_PSP s' (PSP body_state)) /\
    (forall t, exec DOVAR body_state = Some t -> IP t = IP body_state) /\
    (forall t, exec DOCOL body_state = Some t ->
               exists tg, load U16 (Memory t) (to_uint16 (IP body_state - 2))
                          = Some tg /\
                          IP t = to_uint16 (tg + 2)) /\
    (exists t0 t, exec DOCOL t0 = Some t /\ IP t <> IP t0).
Proof.
  apply (DOCON_pushes_body_cell body_state 8704 (-2)).
  - vm_compute. split; [discriminate | reflexivity].
  - reflexivity.
  - reflexivity.
Defined.

(** C4, on the code. At [body_state] the variable primitive leaves [IP]
    alone and pushes the address [target + 2 = 0x2202], but as an [int]:
    four bytes are written at the doubled pointer [0x2000], the cell
    [0x1234] that lay at [0x2002] is overwritten with zero, and [PSP] has
    moved by 4, from [0x1000] to [0x1004], not by 2. *)
Theorem DOVAR_pushes_four_bytes :
  exists s',
    DOVAR body_state = Some (tt, s') /\
    IP s' = IP body_state /\
    PSP body_state = 4096 /\ PSP s' = 4100 /\
    load U16 (Memory body_state) (to_uint16 (IP body_state - 2)) = Some 8704 /\
    load U16 (Memory s') 8192 = Some 8706 /\
    load U16 (Memory body_state) 8194 = Some 4660 /\
    load U16 (Memory s') 8194 = Some 0.
Proof.
  eexists. split; [vm_compute; reflexivity|].
  repeat split.
Qed.

(** ** Division *)

Lemma load_in_bounds (T : ctype) (m : memory) (i v : Z) :
  load T m i = Some v -> 0 <= i /\ i + sizeof T <= 65536.
Proof.
  unfold load, in_bounds, MEMORY_SIZE.
  destruct (Z.leb_spec 0 i); [|discriminate].
  destruct (Z.leb_spec (i + sizeof T) 65536); [|discriminate].
  intros _. split; assumption.
Qed.

Lemma rem_is_int16 (x y : Z) :
  is_int16 x -> is_int16 y -> y <> 0 -> is_int16 (Z.rem x y).
Proof. unfold is_int16. intros Hx Hy Hn. lia. Qed.

Lemma quot_is_int16 (x y : Z) :
  is_int16 x -> is_int16 y -> y <> 0 -> ~ (x = -32768 /\ y = -1) ->
  is_int16 (Z.quot x y).
Proof. unfold is_int16. intros Hx Hy Hn He. nia. Qed.

(** C6, as amended. When the cells at [PSP - 4] and [PSP - 2] hold the
    signed 16-bit values [x] and [y], [y] not zero, the divide/modulo
    primitive leaves at [PSP - 4] the remainder of [x] by [y], which has
    the sign of the dividend, and at [PSP - 2] the quotient truncated
    toward zero and converted to a signed 16-bit cell; [PSP] and the rest
    of the state are unchanged. The cell is the quotient itself except for
    [x = -32768] and [y = -1], whose quotient 32768 is no 16-bit signed
    value. *)
Theorem DIVMOD_truncating (s : State) (x y : Z) :
  load I16 (Memory s) (PSP s - 4) = Some x ->
  load I16 (Memory s) (PSP s - 2) = Some y ->
  y <> 0 ->
  exists s',
    DIVMOD s = Some (tt, s') /\
    PSP s' = PSP s /\ IP s' = IP s /\ RSP s' = RSP s /\
    load I16 (Memory s') (PSP s - 4) = Some (Z.rem x y) /\
    load I16 (Memory s') (PSP s - 2) = Some (to_int16 (Z.quot x y)) /\
    (forall a, a < PSP s - 4 \/ PSP s <= a -> Memory s' a = Memory s a) /\
    (~ (x = -32768 /\ y = -1) -> to_int16 (Z.quot x y) = Z.quot x y).
Proof.
  intros Hx Hy Hn.
  pose proof (load_in_bounds _ _ _ _ Hx) as [Bx1 Bx2].
  pose proof (load_in_bounds _ _ _ _ Hy) as [By1 By2].
  pose proof (load_range_I16 _ _ _ Hx) as Rx.
  pose proof (load_range_I16 _ _ _ Hy) as Ry.
  change (sizeof I16) with 2 in *.
  eexists. split.
  { unfold DIVMOD, bind, PStack_rd, PStack_wr, PStack_index, lift.
    change (to_int16 (-4)) with (-4). change (to_int16 (-2)) with (-2).
    change (PSP s - 4) with (PSP s + -4) in Hx.
    change (PSP s - 2) with (PSP s + -2) in Hy.
    rewrite Hx. cbv beta iota. rewrite Hy. cbv beta iota.
    destruct (Z.eqb_spec y 0) as [E|_]; [contradiction|].
    rewrite store_defined by (change (sizeof I16) with 2; lia).
    cbn [Memory set_Memory PSP].
    rewrite store_defined by (change (sizeof I16) with 2; lia).
    reflexivity. }
  change (PSP s - 4) with (PSP s + -4).
  change (PSP s - 2) with (PSP s + -2).
  cbn [Memory set_Memory PSP IP RSP].
  split; [reflexivity|]. split; [reflexivity|]. split; [reflexivity|].
  split.
  { rewrite load_write_le_other by (change (sizeof I16) with 2; simpl; lia).
    change 2%nat with (nbytes I16).
    rewrite load_pushed_cell by (try reflexivity; change (sizeof I16) with 2; lia).
    cbn [convert]. rewrite to_int16_idem_int16. f_equal.
    apply to_int16_id, rem_is_int16; assumption. }
  split.
  { change 2%nat with (nbytes I16).
    rewrite load_pushed_cell by (try reflexivity; change (sizeof I16) with 2; lia).
    cbn [convert]. rewrite to_int16_idem_int16. reflexivity. }
  split.
  { intros a Ha. rewrite !write_le_outside by (simpl; lia). reflexivity. }
  intros He. apply to_int16_id, quot_is_int16; assumption.
Qed.

Lemma DIVMOD_truncating_witness :
  exists s',
    DIVMOD (divmod_state (-7) 2) = Some (tt, s') /\
    PSP s' = PSP (divmod_state (-7) 2) /\
    IP s' = IP (divmod_state (-7) 2) /\
    RSP s' = RSP (divmod_state (-7) 2) /\
    load I16 (Memory s') (PSP (divmod_state (-7) 2) - 4)
    = Some (Z.rem (-7) 2) /\
    load I16 (Memory s') (PSP (divmod_state (-7) 2) - 2)
    = Some (to_int16 (Z.quot (-7) 2)) /\
    (forall a, a < PSP (divmod_state (-7) 2) - 4 \/
               PSP (divmod_state (-7) 2) <= a ->
               Memory s' a = Memory (divmod_state (-7) 2) a) /\
    (~ (-7 = -32768 /\ 2 = -1) -> to_int16 (Z.quot (-7) 2) = Z.quot (-7) 2).
Proof.
  apply (DIVMOD_truncating (divmod_state (-7) 2) (-7) 2).
  - reflexivity.
  - reflexivity.
  - discriminate.
Defined.

(** The two examples of the specification: 7 by 2 gives quotient 3 and
    remainder 1, -7 by 2 gives quotient -3 and remainder -1. *)
Lemma DIVMOD_examples :
  (exists s', DIVMOD (divmod_state 7 2) = Some (tt, s') /\
              load I16 (Memory s') 4096 = Some 1 /\
              load I16 (Memory s') 4098 = Some 3) /\
  (exists s', DIVMOD (divmod_state (-7) 2) = Some (tt, s') /\
              load I16 (Memory s') 4096 = Some (-1) /\
              load I16 (Memory s') 4098 = Some (-3)).
Proof.
  split; (eexists; split; [vm_compute; reflexivity | split; reflexivity]).
Qed.

(** C6 as stated fails on one pair of operands: the cells hold [-32768]
    and [-1], the divisor is not zero, the quotient truncated toward zero
    is 32768, and the cell the primitive leaves at [PSP - 2] holds
    [-32768]. *)
Lemma DIVMOD_quotient_overflow :
  exists s',
    load I16 (Memory (divmod_state (-32768) (-1)))
         (PSP (divmod_state (-32768) (-1)) - 4) = Some (-32768) /\
    load I16 (Memory (divmod_state (-32768) (-1)))
         (PSP (divmod_state (-32768) (-1)) - 2) = Some (-1) /\
    DIVMOD (divmod_state (-32768) (-1)) = Some (tt, s') /\
    Z.quot (-32768) (-1) = 32768 /\
    load I16 (Memory s') (PSP s' - 2) = Some (-32768) /\
    load I16 (Memory s') (PSP s' - 2) <> Some (Z.quot (-32768) (-1)).
Proof.
  eexists. split; [reflexivity|]. split; [reflexivity|].
  split; [vm_compute; reflexivity|].
  split; [reflexivity|]. split; [reflexivity|].
  vm_compute. discriminate.
Qed.

(** ** Cells below the top of the parameter stack *)

Lemma doubled_next_cell (p n : Z) :
  is_uint16 p -> 0 < n < 16384 ->
  doubled (to_uint16 (p + 2 * n)) + 2 <= doubled p \/
  doubled p + 2 <= doubled (to_uint16 (p + 2 * n)).
Proof. unfold doubled. unfold_conv. lia. Qed.

(** After a push and the pop that undoes it, the next pop still finds the
    cell below. *)
Lemma PStack_pop_second (T T' : ctype) (s : State) (w v : Z) :
  nbytes T = 2%nat -> nbytes T' = 2%nat -> is_uint16 (PSP s) ->
  load T' (Memory s) (doubled (to_uint16 (PSP s - 2))) = Some v ->
  PStack_Pop T' (set_PSP (PStack_pushed T w s) (PSP s))
  = Some (v, set_PSP (PStack_pushed T w s) (to_uint16 (PSP s - 2))).
Proof.
  intros E E' Hp Hl. rewrite PStack_Pop_eq.
  assert (Es : sizeof T' = 2) by (unfold sizeof; rewrite E'; reflexivity).
  rewrite Es. cbn [PSP Memory set_PSP PStack_pushed].
  rewrite load_write_le_other; [rewrite Hl; reflexivity|].
  rewrite Es, E. unfold doubled. unfold_conv. simpl. lia.
Qed.

(** ** Byte store and byte fetch *)

Lemma to_int8_low_byte (x : Z) : to_int8 x mod 256 = x mod 256.
Proof. unfold_conv. lia. Qed.

Lemma to_int8_of_low_byte (x : Z) : to_int8 (x mod 256) = to_int8 x.
Proof. unfold_conv. lia. Qed.

Lemma to_int8_sign_extension (x : Z) :
  to_int8 x = if x mod 256 <? 128 then x mod 256 else x mod 256 - 256.
Proof. unfold_conv. destruct (Z.ltb_spec (x mod 256) 128); lia. Qed.

Lemma to_int16_of_int8 (x : Z) : to_int16 (to_int8 x) = to_int8 x.
Proof. unfold_conv. lia. Qed.

(** [C!] with the address [a] on top of the cell [x]: the low byte of [x]
    goes to [Memory[a]], nothing else is written. *)
Lemma STOREBYTE_eq (s s1 s2 : State) (a x : Z) :
  PStack_Pop U16 s = Some (a, s1) ->
  PStack_Pop I16 s1 = Some (x, s2) ->
  is_uint16 a ->
  STOREBYTE s = Some (tt, set_Memory s2 (set_byte (Memory s2) a (x mod 256))).
Proof.
  intros H1 H2 Ha. unfold STOREBYTE.
  rewrite (bind_Some _ _ _ _ _ H1), (bind_Some _ _ _ _ _ H2).
  unfold Mem_wr, Mem_index. rewrite to_uint16_id by assumption.
  rewrite store_defined by (unfold is_uint16 in Ha; change (sizeof I8) with 1; lia).
  cbn [nbytes write_le]. rewrite to_int8_low_byte. reflexivity.
Qed.

(** [C@] with the address [a] on top: the byte at [a], sign-extended, is
    pushed in its place. *)
Lemma FETCHBYTE_eq (s s1 : State) (a : Z) :
  PStack_Pop U16 s = Some (a, s1) ->
  is_uint16 a -> is_uint16 (PSP s1) ->
  FETCHBYTE s = Some (tt, PStack_pushed I16 (to_int8 (Memory s1 a)) s1).
Proof.
  intros H1 Ha Hp. unfold FETCHBYTE.
  rewrite (bind_Some _ _ _ _ _ H1).
  unfold bind, Mem_rd, Mem_index, lift. rewrite to_uint16_id by assumption.
  rewrite load_defined by (unfold is_uint16 in Ha; change (sizeof I8) with 1; lia).
  cbn [nbytes read_le convert].
  replace (Memory s1 a + 256 * 0) with (Memory s1 a) by lia.
  rewrite to_int16_of_int8.
  apply PStack_Push_eq; [assumption | apply doubled_in_bounds; reflexivity].
Qed.

(** C8, as amended. For every address [a] and every 16-bit cell [x],
    [C!] run with [x] and [a] on the parameter stack writes the low byte
    of [x] to [Memory[a]]. When [a] is then pushed again and [C@] run, the
    cell left on top of the stack is the sign extension of that byte,
    provided [a] is not one of the two bytes of the stack cell in which
    [a] itself is pushed (the bytes at the doubled stack pointer). *)
Theorem byte_store_fetch (s : State) (x a : Z) :
  is_uint16 (PSP s) -> is_int16 x -> is_uint16 a ->
  exists s1,
    (PStack_Push I16 x ;; PStack_Push U16 a ;; STOREBYTE) s = Some (tt, s1) /\
    Memory s1 a = x mod 256 /\
    PSP s1 = PSP s /\
    (a <> doubled (PSP s) -> a <> doubled (PSP s) + 1 ->
     exists s2,
       (PStack_Push U16 a ;; FETCHBYTE) s1 = Some (tt, s2) /\
       PStack_Pop I16 s2
       = Some (if x mod 256 <? 128 then x mod 256 else x mod 256 - 256,
               set_PSP s2 (PSP s))).
Proof.
  intros Hp Hx Ha.
  set (sa := PStack_pushed I16 x s).
  set (sb := PStack_pushed U16 a sa).
  assert (Hpa : is_uint16 (PSP sa)) by apply to_uint16_range.
  assert (Epa : to_uint16 (PSP sa - 2) = PSP s)
    by (apply to_uint16_push_pop; assumption).
  assert (P1 : PStack_Pop U16 sb = Some (a, set_PSP sb (PSP sa))).
  { apply PStack_push_pop;
      [reflexivity | apply to_uint16_id; assumption | assumption]. }
  assert (P2 : PStack_Pop I16 (set_PSP sb (PSP sa))
               = Some (x, set_PSP sb (PSP s))).
  { rewrite <- Epa. apply PStack_pop_second; try reflexivity; [assumption|].
    rewrite Epa. unfold sa. cbn [Memory PStack_pushed].
    pose proof (doubled_even_bound (PSP s)).
    rewrite load_pushed_cell by (try reflexivity; change (sizeof I16) with 2; lia).
    cbn [convert]. rewrite to_int16_id by assumption. reflexivity. }
  eexists. split.
  { erewrite bind_Some
      by (apply PStack_Push_eq; [assumption | apply doubled_in_bounds; reflexivity]).
    erewrite bind_Some
      by (apply PStack_Push_eq; [exact Hpa | apply doubled_in_bounds; reflexivity]).
    fold sa. fold sb. apply (STOREBYTE_eq _ _ _ _ _ P1 P2 Ha). }
  split; [cbn [Memory set_Memory]; unfold set_byte; rewrite Z.eqb_refl; reflexivity|].
  split; [reflexivity|].
  intros N1 N2.
  set (s1 := set_Memory (set_PSP sb (PSP s))
                        (set_byte (Memory (set_PSP sb (PSP s))) a (x mod 256))).
  assert (Hp1 : is_uint16 (PSP s1)) by exact Hp.
  set (sc := PStack_pushed U16 a s1).
  assert (P3 : PStack_Pop U16 sc = Some (a, set_PSP sc (PSP s1))).
  { apply PStack_push_pop;
      [reflexivity | apply to_uint16_id; assumption | assumption]. }
  assert (Hbyte : Memory (set_PSP sc (PSP s1)) a = x mod 256).
  { cbn [Memory set_PSP]. unfold sc. cbn [Memory PStack_pushed].
    rewrite write_le_outside by (cbn [PSP s1 set_Memory set_PSP]; simpl; lia).
    unfold s1. cbn [Memory set_Memory]. unfold set_byte.
    rewrite Z.eqb_refl. reflexivity. }
  eexists. split.
  { erewrite bind_Some
      by (apply PStack_Push_eq; [exact Hp1 | apply doubled_in_bounds; reflexivity]).
    fold sc. apply (FETCHBYTE_eq _ _ _ P3 Ha). exact Hp. }
  rewrite Hbyte, to_int8_of_low_byte, <- to_int8_sign_extension.
  exact (PStack_push_pop I16 (set_PSP sc (PSP s1)) (to_int8 x) eq_refl
                         (to_int16_of_int8 x) Hp).
Qed.

Lemma byte_store_fetch_witness :
  exists s1,
    (PStack_Push I16 255 ;; PStack_Push U16 12288 ;; STOREBYTE)
      (initial zero_memory []) = Some (tt, s1) /\
    Memory s1 12288 = 255 mod 256 /\
    PSP s1 = PSP (initial zero_memory []) /\
    (12288 <> doubled (PSP (initial zero_memory [])) ->
     12288 <> doubled (PSP (initial zero_memory [])) + 1 ->
     exists s2,
       (PStack_Push U16 12288 ;; FETCHBYTE) s1 = Some (tt, s2) /\
       PStack_Pop I16 s2
       = Some (if 255 mod 256 <? 128 then 255 mod 256 else 255 mod 256 - 256,
               set_PSP s2 (PSP (initial zero_memory [])))).
Proof.
  apply (byte_store_fetch (initial zero_memory []) 255 12288).
  - unfold is_uint16. simpl. lia.
  - unfold is_int16. lia.
  - unfold is_uint16. lia.
Defined.

(** The example of the specification: byte [0xFF] stored at [0x3000], then
    fetched, gives the cell [-1]. *)
Lemma store_0xFF_then_fetch :
  exists s',
    (PStack_Push I16 255 ;; PStack_Push U16 12288 ;; STOREBYTE ;;
     PStack_Push U16 12288 ;; FETCHBYTE ;; PStack_Pop I16)
      (initial zero_memory []) = Some (-1, s').
Proof. eexists. vm_compute. reflexivity. Qed.

(** C8 as stated fails when [a] is a byte of the stack cell that carries
    it: from the initial registers ([PSP = 0x1000], cells pushed at
    [0x2000]), byte [0xFF] is stored at [a = 0x2000], pushing [a] again
    for the fetch overwrites that byte with the low byte of [a], and the
    fetch gives [0], not [-1]. *)
Lemma byte_fetch_of_stack_cell :
  exists s1 s2,
    (PStack_Push I16 255 ;; PStack_Push U16 8192 ;; STOREBYTE)
      (initial zero_memory []) = Some (tt, s1) /\
    Memory s1 8192 = 255 /\
    (PStack_Push U16 8192 ;; FETCHBYTE ;; PStack_Pop I16) s1 = Some (0, s2).
Proof.
  eexists. eexists. split; [vm_compute; reflexivity|].
  split; [reflexivity|]. vm_compute. reflexivity.
Qed.

(** ** Duplicating the top cell *)

(** C3, as amended. After [v] is pushed onto the parameter stack and the
    duplicate-top primitive run, where that is defined ([PSP] at most
    65533 before the push), [PSP] is 4 above its value before the push; two
    successive pops bring [PSP] back to its value before the push of [v],
    and the second of them yields [v]. *)
Theorem push_DUP_pop_pop (s : State) (v : Z) :
  is_uint16 (PSP s) -> PSP s < 65534 -> is_int16 v ->
  exists s1 s2 w s3 s4,
    PStack_Push I16 v s = Some (tt, s1) /\
    DUP s1 = Some (tt, s2) /\
    PSP s2 = to_uint16 (PSP s + 4) /\
    PStack_Pop I16 s2 = Some (w, s3) /\
    PStack_Pop I16 s3 = Some (v, s4) /\
    PSP s4 = PSP s.
Proof.
  intros Hp Hlt Hv.
  set (s1 := PStack_pushed I16 v s).
  assert (Ep1 : PSP s1 = PSP s + 2)
    by (unfold s1; cbn [PSP PStack_pushed]; change (sizeof I16) with 2;
        apply to_uint16_id; unfold is_uint16 in *; lia).
  assert (Hp1 : is_uint16 (PSP s1)) by apply to_uint16_range.
  assert (Epop : to_uint16 (PSP s1 - 2) = PSP s)
    by (apply to_uint16_push_pop; assumption).
  destruct (load I16 (Memory s1) (PSP s1 + -2)) as [w|] eqn:Hw.
  2:{ rewrite load_defined in Hw; [discriminate | |];
      unfold is_uint16 in Hp; change (sizeof I16) with 2; lia. }
  set (s2 := PStack_pushed I16 w s1).
  exists s1, s2, w, (set_PSP s2 (PSP s1)), (set_PSP s2 (PSP s)).
  split; [apply PStack_Push_eq; [assumption | apply doubled_in_bounds; reflexivity]|].
  split.
  { unfold DUP, bind, PStack_rd, PStack_index, lift.
    change (to_int16 (-2)) with (-2). rewrite Hw.
    apply PStack_Push_eq; [assumption | apply doubled_in_bounds; reflexivity]. }
  split.
  { unfold s2. cbn [PSP PStack_pushed]. rewrite Ep1.
    change (sizeof I16) with 2. f_equal. lia. }
  split.
  { apply PStack_push_pop; [reflexivity | | assumption].
    apply to_int16_id. eapply load_range_I16. exact Hw. }
  split; [|reflexivity].
  rewrite <- Epop. apply PStack_pop_second; try reflexivity; [assumption|].
  rewrite Epop. unfold s1. cbn [Memory PStack_pushed].
  pose proof (doubled_even_bound (PSP s)).
  rewrite load_pushed_cell by (try reflexivity; change (sizeof I16) with 2; lia).
  cbn [convert]. rewrite to_int16_id by assumption. reflexivity.
Qed.

Lemma push_DUP_pop_pop_witness :
  exists s1 s2 w s3 s4,
    PStack_Push I16 5 (initial zero_memory []) = Some (tt, s1) /\
    DUP s1 = Some (tt, s2) /\
    PSP s2 = to_uint16 (PSP (initial zero_memory []) + 4) /\
    PStack_Pop I16 s2 = Some (w, s3) /\
    PStack_Pop I16 s3 = Some (5, s4) /\
    PSP s4 = PSP (initial zero_memory []).
Proof.
  apply (push_DUP_pop_pop (initial zero_memory []) 5).
  - unfold is_uint16. simpl. lia.
  - simpl. lia.
  - unfold is_int16. lia.
Defined.

(** C3 as stated fails: from the initial registers and a zeroed memory,
    [5] is pushed (at [0x2000]; [PSP] becomes [0x1002]) and [DUP] run; it
    reads the cell at [PSP - 2 = 0x1000], which holds 0. The two pops then
    yield 0 and 5, not 5 and 5, and leave [PSP] at [0x1000], its value
    before the push, not the [0x1002] it had just after it. *)
Lemma push_DUP_not_duplicated :
  exists s1 s2 s3 s4,
    PStack_Push I16 5 (initial zero_memory []) = Some (tt, s1) /\
    PSP s1 = 4098 /\
    DUP s1 = Some (tt, s2) /\
    PStack_Pop I16 s2 = Some (0, s3) /\
    PStack_Pop I16 s3 = Some (5, s4) /\
    PSP s4 = 4096 /\ PSP s4 <> PSP s1.
Proof.
  do 4 eexists.
  split; [vm_compute; reflexivity|]. split; [reflexivity|].
  split; [vm_compute; reflexivity|].
  split; [vm_compute; reflexivity|].
  split; [vm_compute; reflexivity|].
  split; [reflexivity | vm_compute; discriminate].
Qed.

(** ** Arithmetic *)

(** What a binary operator does: the operand [Value] is the cell
    [PStack_Pop] returns, read at the doubled pointer; the other operand
    and the result are the cell at [PSP - 2], at the plain pointer. The
    result is converted to [int16_t]: it wraps modulo 65536. *)
Lemma binop_eq (op : Z -> Z -> Z) (s s1 : State) (Value x : Z) :
  PStack_Pop I16 s = Some (Value, s1) ->
  load I16 (Memory s1) (PSP s1 - 2) = Some x ->
  exists s',
    binop op s = Some (tt, s') /\
    PSP s' = PSP s1 /\
    load I16 (Memory s') (PSP s1 - 2) = Some (to_int16 (op x Value)).
Proof.
  intros H1 Hx.
  pose proof (load_in_bounds _ _ _ _ Hx) as [B1 B2].
  change (PSP s1 - 2) with (PSP s1 + -2) in *.
  eexists. split.
  { unfold binop. rewrite (bind_Some _ _ _ _ _ H1).
    unfold bind, PStack_rd, PStack_wr, PStack_index, lift.
    change (to_int16 (-2)) with (-2). rewrite Hx.
    rewrite store_defined by assumption. reflexivity. }
  split; [reflexivity|].
  cbn [Memory set_Memory]. apply load_pushed_cell; [reflexivity | assumption..].
Qed.

(** The addition itself wraps: 32767 plus 1 is stored as -32768. *)
Lemma ADD_wraps :
  exists s',
    ADD (mixed_state 32767 1) = Some (tt, s') /\
    PSP s' = 4098 /\
    load I16 (Memory s') 4096 = Some (-32768).
Proof. eexists. split; [vm_compute; reflexivity|]. split; reflexivity. Qed.

(** C9, on the code. The operands are pushed with [PStack_Push], the
    operator run and the result popped with [PStack_Pop]: from the initial
    registers, 32767 and 1 are pushed, [ADD] run, and the cell on top of the
    stack is 32767, not -32768; likewise 5 and 3 leave 5 under [SUB] and
    under [MUL]. The operator popped its right operand at the doubled
    pointer ([0x2004]) but took its left operand from, and wrote its result
    to, the plain address [PSP - 2 = 0x1000], where no operand was pushed.
    With the operands at the plain addresses [PSP - 4] and [PSP - 2]
    instead, [ADD] pops a cell from elsewhere and leaves 32767 as well. *)
Theorem arithmetic_misses_pushed_cells :
  (exists s1 s2,
     (PStack_Push I16 32767 ;; PStack_Push I16 1 ;; ADD)
       (initial zero_memory []) = Some (tt, s1) /\
     load I16 (Memory s1) 4096 = Some 1 /\
     PStack_Pop I16 s1 = Some (32767, s2)) /\
  (exists s',
     (PStack_Push I16 5 ;; PStack_Push I16 3 ;; SUB ;; PStack_Pop I16)
       (initial zero_memory []) = Some (5, s')) /\
  (exists s',
     (PStack_Push I16 5 ;; PStack_Push I16 3 ;; MUL ;; PStack_Pop I16)
       (initial zero_memory []) = Some (5, s')) /\
  (exists s',
     ADD (divmod_state 32767 1) = Some (tt, s') /\
     PSP s' = 4098 /\
     load I16 (Memory s') (PSP s' - 2) = Some 32767).
Proof.
  split.
  { do 2 eexists. split; [vm_compute; reflexivity|].
    split; [reflexivity | vm_compute; reflexivity]. }
  split; [eexists; vm_compute; reflexivity|].
  split; [eexists; vm_compute; reflexivity|].
  eexists. split; [vm_compute; reflexivity|]. split; reflexivity.
Qed.

(** ** Call and return *)

Lemma load_bytes_U16 (m m' : memory) (i : Z) :
  m' i = m i -> m' (i + 1) = m (i + 1) -> load U16 m' i = load U16 m i.
Proof.
  intros H0 H1. unfold load. cbn [nbytes read_le]. rewrite H0, H1.
  reflexivity.
Qed.

Lemma DOCOL_eq (s : State) (target : Z) :
  is_uint16 (RSP s) ->
  load U16 (Memory (RStack_pushed U16 (IP s) s)) (to_uint16 (IP s - 2))
  = Some target ->
  DOCOL s = Some (tt, set_IP (RStack_pushed U16 (IP s) s)
                             (to_uint16 (target + 2))).
Proof.
  intros Hr Ht. unfold DOCOL.
  unfold bind at 1. unfold get at 1.
  erewrite bind_Some
    by (apply RStack_Push_eq; [assumption | apply doubled_in_bounds; reflexivity]).
  unfold bind, get, Mem_rd, Mem_index, lift, modify.
  cbn [IP RStack_pushed] in *. rewrite Ht. reflexivity.
Qed.

Lemma EXIT_eq (s : State) (v : Z) :
  load U16 (Memory s) (doubled (to_uint16 (RSP s - 2))) = Some v ->
  EXIT s = Some (tt, set_IP (set_RSP s (to_uint16 (RSP s - 2))) v).
Proof.
  intros H. unfold EXIT, bind. rewrite RStack_Pop_eq.
  change (sizeof U16) with 2. rewrite H. reflexivity.
Qed.

(** A pushing operation moves [RSP] up by 2 and writes the two bytes at
    the doubled pointer only; a popping one moves [RSP] down by 2 and
    writes nothing. *)
Lemma run_op_push (o : rs_op) (t t' : State) (u : unit) :
  pushes o = true -> is_uint16 (RSP t) ->
  run_op o t = Some (u, t') ->
  RSP t' = to_uint16 (RSP t + 2) /\
  forall a, a <> doubled (RSP t) -> a <> doubled (RSP t) + 1 ->
            Memory t' a = Memory t a.
Proof.
  intros Hpush Hr H.
  assert (Frame : forall (T : ctype) v s0 s0' u0,
            nbytes T = 2%nat -> is_uint16 (RSP s0) ->
            RStack_Push T v s0 = Some (u0, s0') ->
            RSP s0' = to_uint16 (RSP s0 + 2) /\
            forall a, a <> doubled (RSP s0) -> a <> doubled (RSP s0) + 1 ->
                      Memory s0' a = Memory s0 a).
  { intros T v s0 s0' u0 E Hr0 Hpu.
    rewrite RStack_Push_eq in Hpu
      by (try assumption; apply doubled_in_bounds, E).
    injection Hpu as _ <-. cbn [RSP Memory RStack_pushed].
    split; [unfold sizeof; rewrite E; reflexivity|].
    intros a H1 H2. apply write_le_outside. rewrite E. simpl. lia. }
  destruct o; try discriminate; cbn [run_op] in H.
  - eapply (Frame U16); [reflexivity | eassumption..].
  - unfold TOR in H. apply bind_inv in H as (v & s1 & Hpop & H).
    rewrite PStack_Pop_eq in Hpop.
    destruct (load I16 _ _); [|discriminate]. injection Hpop as _ <-.
    apply (Frame I16) in H; [exact H | reflexivity | exact Hr].
  - unfold DOCOL in H.
    apply bind_inv in H as (ip & s1 & H1 & H).
    unfold get in H1. injection H1 as _ <-.
    apply bind_inv in H as (u1 & s2 & H2 & H).
    apply (Frame U16) in H2 as [E2 F2]; [|reflexivity | exact Hr].
    apply bind_inv in H as (ip' & s3 & H3 & H).
    unfold get in H3. injection H3 as _ <-.
    apply bind_inv in H as (tg & s4 & H4 & H).
    unfold Mem_rd, lift in H4.
    destruct (load U16 _ _); [|discriminate]. injection H4 as _ <-.
    unfold modify in H. injection H as _ <-.
    cbn [RSP Memory set_IP]. split; assumption.
Qed.

Lemma run_op_pop (o : rs_op) (t t' : State) (u : unit) :
  pushes o = false ->
  run_op o t = Some (u, t') ->
  RSP t' = to_uint16 (RSP t - 2) /\ Memory t' = Memory t.
Proof.
  intros Hpop H. destruct o; try discriminate; cbn [run_op] in H.
  - apply bind_inv in H as (v & s1 & H1 & H).
    rewrite RStack_Pop_eq in H1.
    destruct (load U16 _ _); [|discriminate]. injection H1 as _ <-.
    unfold ret in H. injection H as _ <-. split; reflexivity.
  - unfold EXIT in H. apply bind_inv in H as (v & s1 & H1 & H).
    rewrite RStack_Pop_eq in H1.
    destruct (load U16 _ _); [|discriminate]. injection H1 as _ <-.
    unfold modify in H. injection H as _ <-. split; reflexivity.
Qed.

(** The LIFO invariant: while the operations match, the cell holding the
    saved [IP] (at the doubled value [r] of the pointer) is never written,
    and the pointer ends just above it. *)
Lemma run_ops_matched (ops : list rs_op) :
  forall (depth : nat) (r : Z) (t t' : State) (u : unit),
    is_uint16 r ->
    RSP t = to_uint16 (r + 2 + 2 * Z.of_nat depth) ->
    matched depth ops = true ->
    run_ops ops t = Some (u, t') ->
    RSP t' = to_uint16 (r + 2) /\
    Memory t' (doubled r) = Memory t (doubled r) /\
    Memory t' (doubled r + 1) = Memory t (doubled r + 1).
Proof.
  induction ops as [|o rest IH]; intros depth r t t' u Hr Hrsp Hm Hrun.
  - cbn in Hm, Hrun. apply Nat.eqb_eq in Hm. subst depth.
    unfold ret in Hrun. injection Hrun as _ <-.
    rewrite Hrsp. repeat split. f_equal. lia.
  - cbn [matched run_ops] in Hm, Hrun.
    apply bind_inv in Hrun as (u1 & t1 & Hop & Hrun).
    destruct (pushes o) eqn:Hpu.
    + apply andb_prop in Hm as [Hd Hm]. apply Z.ltb_lt in Hd.
      unfold MAX_DEPTH in Hd.
      apply run_op_push in Hop as [E1 F1];
        [|exact Hpu | rewrite Hrsp; apply to_uint16_range].
      apply (IH (S depth) r t1 t' u Hr) in Hrun;
        [| rewrite E1, Hrsp; unfold_conv; lia | exact Hm].
      destruct Hrun as (E' & M0 & M1).
      split; [exact E'|].
      assert (Sep : doubled (RSP t) + 2 <= doubled r \/
                    doubled r + 2 <= doubled (RSP t)).
      { rewrite Hrsp.
        replace (r + 2 + 2 * Z.of_nat depth)
          with (r + 2 * (Z.of_nat depth + 1)) by lia.
        apply doubled_next_cell; [assumption | lia]. }
      rewrite M0, M1. split; apply F1; lia.
    + destruct depth as [|d]; [discriminate|].
      apply run_op_pop in Hop as [E1 F1]; [|exact Hpu].
      apply (IH d r t1 t' u Hr) in Hrun;
        [| rewrite E1, Hrsp; unfold_conv; lia | exact Hm].
      destruct Hrun as (E' & M0 & M1).
      rewrite M0, M1, F1. repeat split. exact E'.
Qed.

(** Without a nested [DOCOL], whose read at [IP - 2] can fall outside
    memory, the operations are defined on every state. *)
Lemma run_ops_defined (ops : list rs_op) :
  forall t : State,
    is_uint16 (RSP t) ->
    forallb (fun o => negb (is_call o)) ops = true ->
    exists t', run_ops ops t = Some (tt, t').
Proof.
  assert (Pop : forall T p m, nbytes T = 2%nat ->
            exists v, load T m (doubled p) = Some v).
  { intros T p m E. eexists. apply load_defined.
    - pose proof (doubled_even_bound p). lia.
    - apply doubled_in_bounds, E. }
  induction ops as [|o rest IH]; intros t Hr Hc.
  - exists t. reflexivity.
  - cbn [forallb] in Hc. apply andb_prop in Hc as [Ho Hc].
    cbn [run_ops].
    assert (Step : exists t1, run_op o t = Some (tt, t1) /\ is_uint16 (RSP t1)).
    { destruct o; try discriminate; cbn [run_op].
      - eexists. split;
          [apply RStack_Push_eq; [assumption | apply doubled_in_bounds; reflexivity]|].
        apply to_uint16_range.
      - destruct (Pop U16 (to_uint16 (RSP t - sizeof U16)) (Memory t) eq_refl)
          as [v Hv].
        eexists. split.
        + unfold bind. rewrite RStack_Pop_eq, Hv. reflexivity.
        + apply to_uint16_range.
      - destruct (Pop I16 (to_uint16 (PSP t - sizeof I16)) (Memory t) eq_refl)
          as [v Hv].
        eexists. split.
        + unfold TOR, bind. rewrite PStack_Pop_eq, Hv.
          apply RStack_Push_eq; [exact Hr | apply doubled_in_bounds; reflexivity].
        + apply to_uint16_range.
      - destruct (Pop U16 (to_uint16 (RSP t - sizeof U16)) (Memory t) eq_refl)
          as [v Hv].
        eexists. split.
        + unfold EXIT, bind. rewrite RStack_Pop_eq, Hv. reflexivity.
        + apply to_uint16_range. }
    destruct Step as (t1 & H1 & Hr1).
    destruct (IH t1 Hr1 Hc) as [t' H'].
    exists t'. rewrite (bind_Some _ _ _ _ _ H1). exact H'.
Qed.

(** C2, as amended. Where the return-stack cell that the colon primitive
    writes (the two bytes at the doubled [RSP]) does not overlap the cell at
    [IP - 2] that holds [target], [DOCOL] pushes the current [IP] onto the
    return stack and sets [IP] to [target + 2]. An [EXIT] dispatched after
    any sequence of return-stack operations that match (pushes, pops, [>R],
    nested [DOCOL] and [EXIT]) and never hold more than 16383 cells above
    the saved one, and whose behaviour is defined, pops that value back:
    [IP] and [RSP] are what they were before the call. *)
Theorem DOCOL_EXIT_round_trip (s : State) (target : Z) :
  is_uint16 (IP s) -> is_uint16 (RSP s) ->
  load U16 (Memory s) (to_uint16 (IP s - 2)) = Some target ->
  doubled (RSP s) + 2 <= to_uint16 (IP s - 2) \/
  to_uint16 (IP s - 2) + 2 <= doubled (RSP s) ->
  exists s1,
    DOCOL s = Some (tt, s1) /\
    IP s1 = to_uint16 (target + 2) /\
    RSP s1 = to_uint16 (RSP s + 2) /\
    PSP s1 = PSP s /\
    RStack_Pop U16 s1 = Some (IP s, set_RSP s1 (RSP s)) /\
    forall ops s2,
      matched 0 ops = true ->
      run_ops ops s1 = Some (tt, s2) ->
      exists s3, EXIT s2 = Some (tt, s3) /\ IP s3 = IP s /\ RSP s3 = RSP s.
Proof.
  intros Hip Hr Ht Sep.
  set (sp := RStack_pushed U16 (IP s) s).
  pose proof (doubled_even_bound (RSP s)) as Hb.
  assert (Hsaved : load U16 (Memory sp) (doubled (RSP s)) = Some (IP s)).
  { unfold sp. cbn [Memory RStack_pushed].
    rewrite load_pushed_cell by (try reflexivity; change (sizeof U16) with 2; lia).
    cbn [convert]. rewrite to_uint16_id by assumption. reflexivity. }
  exists (set_IP sp (to_uint16 (target + 2))).
  split.
  { apply DOCOL_eq; [assumption|]. cbn [Memory RStack_pushed].
    rewrite load_write_le_other; [exact Ht|].
    change (sizeof U16) with 2. simpl. lia. }
  split; [reflexivity|]. split; [reflexivity|]. split; [reflexivity|].
  split.
  { exact (RStack_push_pop U16 (set_IP s (to_uint16 (target + 2))) (IP s)
             eq_refl (to_uint16_id _ Hip) Hr). }
  intros ops s2 Hm Hrun.
  apply (run_ops_matched ops 0 (RSP s)) in Hrun as (E & M0 & M1);
    [| assumption
     | unfold sp; cbn [RSP set_IP RStack_pushed]; change (sizeof U16) with 2;
       f_equal; simpl; lia
     | assumption].
  cbn [Memory set_IP] in M0, M1.
  assert (Hl : load U16 (Memory s2) (doubled (to_uint16 (RSP s2 - 2)))
               = Some (IP s)).
  { rewrite E, to_uint16_push_pop by assumption.
    rewrite <- Hsaved. apply load_bytes_U16; assumption. }
  eexists. split; [apply EXIT_eq; exact Hl|].
  cbn [IP RSP set_IP set_RSP]. split; [reflexivity|].
  rewrite E. apply to_uint16_push_pop. assumption.
Qed.

Lemma DOCOL_EXIT_round_trip_witness :
  exists s1,
    DOCOL body_state = Some (tt, s1) /\
    IP s1 = to_uint16 (8704 + 2) /\
    RSP s1 = to_uint16 (RSP body_state + 2) /\
    PSP s1 = PSP body_state /\
    RStack_Pop U16 s1 = Some (IP body_state, set_RSP s1 (RSP body_state)) /\
    forall ops s2,
      matched 0 ops = true ->
      run_ops ops s1 = Some (tt, s2) ->
      exists s3, EXIT s2 = Some (tt, s3) /\
                 IP s3 = IP body_state /\ RSP s3 = RSP body_state.
Proof.
  apply (DOCOL_EXIT_round_trip body_state 8704).
  - unfold is_uint16. simpl. lia.
  - unfold is_uint16. simpl. lia.
  - reflexivity.
  - left. vm_compute. discriminate.
Defined.

(** A nested call, with a cell passed through [>R], returns to where the
    outer call came from. *)
Lemma nested_call_example :
  matched 0 [OpCall; OpTOR; OpPush 7; OpPop; OpPop; OpReturn] = true /\
  option_map (fun t => (IP t, RSP t))
    (exec (DOCOL ;;
           run_ops [OpCall; OpTOR; OpPush 7; OpPop; OpPop; OpReturn] ;;
           EXIT) body_state)
  = Some (IP body_state, RSP body_state).
Proof. split; vm_compute; reflexivity. Qed.

(** C2 as stated fails where the two cells coincide, and they do on the
    first call of the machine: after the first cycle from the initial
    registers, [IP = 2] and [target = 0x2100] is the cell at [IP - 2 = 0];
    with [RSP = 0], [DOCOL] pushes [IP] over that very cell before reading
    it back, and sets [IP] to 4, not to [target + 2 = 0x2102]. *)
Lemma DOCOL_overwrites_its_target :
  exists s1,
    cycle (initial first_call_memory []) = DOCOL first_call_state /\
    load U16 (Memory first_call_state) (to_uint16 (IP first_call_state - 2))
    = Some 8448 /\
    DOCOL first_call_state = Some (tt, s1) /\
    IP s1 = 4 /\
    IP s1 <> to_uint16 (8448 + 2).
Proof.
  eexists. split; [reflexivity|]. split; [reflexivity|].
  split; [vm_compute; reflexivity|].
  split; [reflexivity | vm_compute; discriminate].
Qed.

(** The bound on the depth is needed: with 16383 cells above the saved
    [IP], the pointer doubles to the address of the saved cell again, and
    one more push overwrites the saved [IP]. *)
Lemma return_stack_wraps_at_16384 (r : Z) :
  is_uint16 r -> doubled (to_uint16 (r + 2 + 2 * 16383)) = doubled r.
Proof. unfold doubled. unfold_conv. lia. Qed.

Lemma saved_IP_overwritten_at_16384 :
  exists s1 s2 s3,
    DOCOL body_state = Some (tt, s1) /\
    RSP s1 = 2 /\
    RStack_Push U16 7 (set_RSP s1 (to_uint16 (RSP s1 + 2 * 16383)))
    = Some (tt, s2) /\
    EXIT (set_RSP s2 (RSP s1)) = Some (tt, s3) /\
    IP s3 = 7 /\ IP body_state = 8450.
Proof.
  do 3 eexists. split; [vm_compute; reflexivity|]. split; [reflexivity|].
  split; [vm_compute; reflexivity|].
  split; [vm_compute; reflexivity|]. split; reflexivity.
Qed.

(** * Further properties of the native words *)

(** ** Moving a cell to the return stack and back *)

Lemma pop_defined (T : ctype) (m : memory) (p : Z) :
  nbytes T = 2%nat ->
  load T m (doubled p) = Some (convert T (read_le m (doubled p) (nbytes T))).
Proof.
  intros E. apply load_defined.
  - pose proof (doubled_even_bound p). lia.
  - apply doubled_in_bounds, E.
Qed.

(** X1. [>R] followed by [R>]: the top cell of the parameter stack goes to
    the return stack and comes back; both stack pointers are what they were
    and the parameter stack pops the same cell as before. *)
Theorem TOR_FROMR_round_trip (s : State) :
  is_uint16 (PSP s) -> is_uint16 (RSP s) ->
  exists v s1 s2 s3,
    PStack_Pop I16 s = Some (v, s1) /\
    TOR s = Some (tt, s2) /\
    PSP s2 = to_uint16 (PSP s - 2) /\ RSP s2 = to_uint16 (RSP s + 2) /\
    RStack_Pop I16 s2 = Some (v, set_RSP s2 (RSP s)) /\
    FROMR s2 = Some (tt, s3) /\
    PSP s3 = PSP s /\ RSP s3 = RSP s /\ IP s3 = IP s /\
    PStack_Pop I16 s3 = Some (v, set_PSP s3 (to_uint16 (PSP s - 2))).
Proof.
  intros Hp Hr.
  set (p' := to_uint16 (PSP s - 2)).
  set (v := convert I16 (read_le (Memory s) (doubled p') (nbytes I16))).
  assert (Hv : convert I16 v = v) by (apply to_int16_idem_int16).
  set (s1 := set_PSP s p').
  assert (P1 : PStack_Pop I16 s = Some (v, s1)).
  { rewrite PStack_Pop_eq. change (sizeof I16) with 2. fold p'.
    rewrite pop_defined by reflexivity. reflexivity. }
  set (s2 := RStack_pushed I16 v s1).
  assert (T1 : TOR s = Some (tt, s2)).
  { unfold TOR. rewrite (bind_Some _ _ _ _ _ P1).
    apply RStack_Push_eq; [exact Hr | apply doubled_in_bounds; reflexivity]. }
  assert (R1 : RStack_Pop I16 s2 = Some (v, set_RSP s2 (RSP s))).
  { exact (RStack_push_pop I16 s1 v eq_refl Hv Hr). }
  set (t := set_RSP s2 (RSP s)).
  assert (Hpt : is_uint16 (PSP t)) by apply to_uint16_range.
  set (s3 := PStack_pushed I16 v t).
  exists v, s1, s2, s3.
  split; [exact P1|]. split; [exact T1|].
  split; [reflexivity|]. split; [reflexivity|]. split; [exact R1|].
  split.
  { unfold FROMR. rewrite (bind_Some _ _ _ _ _ R1).
    apply PStack_Push_eq; [exact Hpt | apply doubled_in_bounds; reflexivity]. }
  assert (E : to_uint16 (p' + 2) = PSP s)
    by (unfold p'; unfold_conv; lia).
  split; [exact E|]. split; [reflexivity|]. split; [reflexivity|].
  exact (PStack_push_pop I16 t v eq_refl Hv Hpt).
Qed.

Lemma TOR_FROMR_round_trip_witness :
  exists v s1 s2 s3,
    PStack_Pop I16 (three_cells 1 2 3) = Some (v, s1) /\
    TOR (three_cells 1 2 3) = Some (tt, s2) /\
    PSP s2 = to_uint16 (PSP (three_cells 1 2 3) - 2) /\
    RSP s2 = to_uint16 (RSP (three_cells 1 2 3) + 2) /\
    RStack_Pop I16 s2 = Some (v, set_RSP s2 (RSP (three_cells 1 2 3))) /\
    FROMR s2 = Some (tt, s3) /\
    PSP s3 = PSP (three_cells 1 2 3) /\ RSP s3 = RSP (three_cells 1 2 3) /\
    IP s3 = IP (three_cells 1 2 3) /\
    PStack_Pop I16 s3
    = Some (v, set_PSP s3 (to_uint16 (PSP (three_cells 1 2 3) - 2))).
Proof.
  apply (TOR_FROMR_round_trip (three_cells 1 2 3));
    unfold is_uint16; simpl; lia.
Defined.

(** ** Reading and setting the stack pointers *)

(** X2. [DSP@] pushes the value [PSP] had before the push, [RSP@] the
    value of [RSP]; [DSP!] and [RSP!] pop a cell into [PSP] and into [RSP].
    So [DSP@ DSP!] and [RSP@ RSP!] leave all three registers as they were,
    and an address [a] pushed before [DSP!] or [RSP!] becomes the pointer,
    whichever value the pointer had. *)
Theorem stack_pointer_fetch_store (s : State) (a : Z) :
  is_uint16 (PSP s) -> is_uint16 (RSP s) -> is_uint16 a ->
  (exists s1, DSP_FETCH s = Some (tt, s1) /\
              PStack_Pop U16 s1 = Some (PSP s, set_PSP s1 (PSP s))) /\
  (exists s1, RSP_FETCH s = Some (tt, s1) /\
              PStack_Pop U16 s1 = Some (RSP s, set_PSP s1 (PSP s))) /\
  (exists s2, (DSP_FETCH ;; DSP_STORE) s = Some (tt, s2) /\
              PSP s2 = PSP s /\ RSP s2 = RSP s /\ IP s2 = IP s) /\
  (exists s2, (RSP_FETCH ;; RSP_STORE) s = Some (tt, s2) /\
              PSP s2 = PSP s /\ RSP s2 = RSP s /\ IP s2 = IP s) /\
  (exists s2, (PStack_Push U16 a ;; DSP_STORE) s = Some (tt, s2) /\
              PSP s2 = a /\ RSP s2 = RSP s /\ IP s2 = IP s) /\
  (exists s2, (PStack_Push U16 a ;; RSP_STORE) s = Some (tt, s2) /\
              PSP s2 = PSP s /\ RSP s2 = a /\ IP s2 = IP s).
Proof.
  intros Hp Hr Ha.
  assert (Push : forall v, PStack_Push U16 v s = Some (tt, PStack_pushed U16 v s))
    by (intros v; apply PStack_Push_eq;
        [exact Hp | apply doubled_in_bounds; reflexivity]).
  assert (Pop : forall v, is_uint16 v ->
            PStack_Pop U16 (PStack_pushed U16 v s)
            = Some (v, set_PSP (PStack_pushed U16 v s) (PSP s)))
    by (intros v Hv; apply PStack_push_pop;
        [reflexivity | apply to_uint16_id; exact Hv | exact Hp]).
  assert (DF : DSP_FETCH s = Some (tt, PStack_pushed U16 (PSP s) s))
    by (unfold DSP_FETCH, bind, get; apply Push).
  assert (RF : RSP_FETCH s = Some (tt, PStack_pushed U16 (RSP s) s))
    by (unfold RSP_FETCH, bind, get; apply Push).
  split; [eexists; split; [exact DF | apply Pop, Hp]|].
  split; [eexists; split; [exact RF | apply Pop, Hr]|].
  split.
  { eexists. split.
    - rewrite (bind_Some _ _ _ _ _ DF). unfold DSP_STORE.
      rewrite (bind_Some _ _ _ _ _ (Pop _ Hp)). reflexivity.
    - repeat split. }
  split.
  { eexists. split.
    - rewrite (bind_Some _ _ _ _ _ RF). unfold RSP_STORE.
      rewrite (bind_Some _ _ _ _ _ (Pop _ Hr)). reflexivity.
    - repeat split. }
  split.
  { eexists. split.
    - rewrite (bind_Some _ _ _ _ _ (Push a)). unfold DSP_STORE.
      rewrite (bind_Some _ _ _ _ _ (Pop _ Ha)). reflexivity.
    - repeat split. }
  eexists. split.
  - rewrite (bind_Some _ _ _ _ _ (Push a)). unfold RSP_STORE.
    rewrite (bind_Some _ _ _ _ _ (Pop _ Ha)). reflexivity.
  - repeat split.
Qed.

Lemma stack_pointer_fetch_store_witness :
  exists s2, (PStack_Push U16 8192 ;; DSP_STORE) stack_state = Some (tt, s2) /\
             PSP s2 = 8192 /\ RSP s2 = RSP stack_state /\ IP s2 = IP stack_state.
Proof.
  assert (Hp : is_uint16 (PSP stack_state)) by (unfold is_uint16; simpl; lia).
  assert (Hr : is_uint16 (RSP stack_state)) by (unfold is_uint16; simpl; lia).
  assert (Ha : is_uint16 8192) by (unfold is_uint16; lia).
  exact (proj1 (proj2 (proj2 (proj2 (proj2
           (stack_pointer_fetch_store stack_state 8192 Hp Hr Ha)))))).
Defined.

(** ** Stack shuffling *)

Lemma PStack_rd_eq (T : ctype) (s : State) (k v : Z) :
  is_int16 k ->
  load T (Memory s) (PSP s + k) = Some v ->
  PStack_rd T k s = Some (v, s).
Proof.
  intros Hk H. unfold PStack_rd, PStack_index, lift.
  rewrite to_int16_id by assumption. rewrite H. reflexivity.
Qed.

Lemma PStack_wr_eq (T : ctype) (s : State) (k v : Z) :
  is_int16 k -> 0 <= PSP s + k -> PSP s + k + sizeof T <= 65536 ->
  PStack_wr T k v s
  = Some (tt, set_Memory s (write_le (Memory s) (PSP s + k) (nbytes T) v)).
Proof.
  intros Hk H1 H2. unfold PStack_wr, PStack_index.
  rewrite to_int16_id by assumption.
  rewrite store_defined by assumption. reflexivity.
Qed.

(** X3. The round trip of the specification, on the code: after a cell [v]
    is pushed, [DUP] followed by [DROP] leaves [PSP] where the push left it,
    and the cell on top of the stack is still [v]. ([DUP] copies the cell
    at the plain address [PSP - 2], not [v]; [DROP] discards the copy.) *)
Theorem push_DUP_DROP (s : State) (v : Z) :
  is_uint16 (PSP s) -> PSP s < 65534 -> is_int16 v ->
  exists s1 s2 s3,
    PStack_Push I16 v s = Some (tt, s1) /\
    DUP s1 = Some (tt, s2) /\
    DROP s2 = Some (tt, s3) /\
    PSP s3 = PSP s1 /\ IP s3 = IP s /\ RSP s3 = RSP s /\
    PStack_Pop I16 s3 = Some (v, set_PSP s3 (PSP s)).
Proof.
  intros Hp Hlt Hv.
  set (s1 := PStack_pushed I16 v s).
  assert (Ep1 : PSP s1 = PSP s + 2)
    by (unfold s1; cbn [PSP PStack_pushed]; change (sizeof I16) with 2;
        apply to_uint16_id; unfold is_uint16 in *; lia).
  assert (Hp1 : is_uint16 (PSP s1)) by apply to_uint16_range.
  destruct (load I16 (Memory s1) (PSP s1 + -2)) as [w|] eqn:Hw.
  2:{ rewrite load_defined in Hw; [discriminate | |];
      unfold is_uint16 in Hp; change (sizeof I16) with 2; lia. }
  set (s2 := PStack_pushed I16 w s1).
  exists s1, s2, (set_PSP s2 (to_uint16 (PSP s2 - 2))).
  split; [apply PStack_Push_eq; [assumption | apply doubled_in_bounds; reflexivity]|].
  split.
  { unfold DUP. erewrite bind_Some
      by (apply PStack_rd_eq; [unfold is_int16; lia | exact Hw]).
    apply PStack_Push_eq; [assumption | apply doubled_in_bounds; reflexivity]. }
  split; [reflexivity|].
  assert (E2 : to_uint16 (PSP s2 - 2) = PSP s1).
  { unfold s2. cbn [PSP PStack_pushed]. change (sizeof I16) with 2.
    apply to_uint16_push_pop. exact Hp1. }
  cbn [PSP IP RSP set_PSP]. rewrite E2.
  split; [reflexivity|]. split; [reflexivity|]. split; [reflexivity|].
  assert (Epop : to_uint16 (PSP s1 - 2) = PSP s)
    by (apply to_uint16_push_pop; assumption).
  rewrite <- Epop. apply PStack_pop_second; try reflexivity; [assumption|].
  rewrite Epop. unfold s1. cbn [Memory PStack_pushed].
  pose proof (doubled_even_bound (PSP s)).
  rewrite load_pushed_cell by (try reflexivity; change (sizeof I16) with 2; lia).
  cbn [convert]. rewrite to_int16_id by assumption. reflexivity.
Qed.

Lemma push_DUP_DROP_witness :
  exists s1 s2 s3,
    PStack_Push I16 5 (initial zero_memory []) = Some (tt, s1) /\
    DUP s1 = Some (tt, s2) /\
    DROP s2 = Some (tt, s3) /\
    PSP s3 = PSP s1 /\ IP s3 = IP (initial zero_memory []) /\
    RSP s3 = RSP (initial zero_memory []) /\
    PStack_Pop I16 s3 = Some (5, set_PSP s3 (PSP (initial zero_memory []))).
Proof.
  apply (push_DUP_DROP (initial zero_memory []) 5).
  - unfold is_uint16. simpl. lia.
  - simpl. lia.
  - unfold is_int16. lia.
Defined.

(** X4. [SWAP] exchanges the cells at [PSP - 2] and [PSP - 4], writes no
    other byte and changes no register; run twice it puts both cells back.
    With fewer than 4 bytes below [PSP] it is undefined. *)
Theorem SWAP_exchanges (s : State) (x y : Z) :
  load U16 (Memory s) (PSP s - 2) = Some x ->
  load U16 (Memory s) (PSP s - 4) = Some y ->
  (exists s1 s2,
     SWAP s = Some (tt, s1) /\
     PSP s1 = PSP s /\ IP s1 = IP s /\ RSP s1 = RSP s /\
     load U16 (Memory s1) (PSP s - 2) = Some y /\
     load U16 (Memory s1) (PSP s - 4) = Some x /\
     (forall a, a < PSP s - 4 \/ PSP s <= a -> Memory s1 a = Memory s a) /\
     SWAP s1 = Some (tt, s2) /\
     load U16 (Memory s2) (PSP s - 2) = Some x /\
     load U16 (Memory s2) (PSP s - 4) = Some y) /\
  (forall t, PSP t < 4 -> SWAP t = None).
Proof.
  intros Hx Hy.
  assert (Swap : forall t a b,
            load U16 (Memory t) (PSP t - 2) = Some a ->
            load U16 (Memory t) (PSP t - 4) = Some b ->
            exists t1,
              SWAP t = Some (tt, t1) /\
              PSP t1 = PSP t /\ IP t1 = IP t /\ RSP t1 = RSP t /\
              load U16 (Memory t1) (PSP t - 2) = Some b /\
              load U16 (Memory t1) (PSP t - 4) = Some a /\
              (forall i, i < PSP t - 4 \/ PSP t <= i -> Memory t1 i = Memory t i)).
  { intros t a b Ha Hb.
    pose proof (load_in_bounds _ _ _ _ Ha) as [A1 A2].
    pose proof (load_in_bounds _ _ _ _ Hb) as [B1 B2].
    pose proof (load_range_U16 _ _ _ Ha) as Ra.
    pose proof (load_range_U16 _ _ _ Hb) as Rb.
    change (sizeof U16) with 2 in *.
    change (PSP t - 2) with (PSP t + -2) in *.
    change (PSP t - 4) with (PSP t + -4) in *.
    eexists. split.
    { unfold SWAP.
      erewrite bind_Some by (apply PStack_rd_eq; [unfold is_int16; lia | exact Ha]).
      erewrite bind_Some by (apply PStack_rd_eq; [unfold is_int16; lia | exact Hb]).
      erewrite bind_Some
        by (apply PStack_wr_eq;
            [unfold is_int16; lia | lia | change (sizeof U16) with 2; lia]).
      apply PStack_wr_eq;
        [unfold is_int16; lia | exact B1 | change (sizeof U16) with 2; exact B2]. }
    cbn [Memory PSP IP RSP set_Memory].
    split; [reflexivity|]. split; [reflexivity|]. split; [reflexivity|].
    split.
    { rewrite load_write_le_other by (change (sizeof U16) with 2; simpl; lia).
      change 2%nat with (nbytes U16).
      rewrite load_pushed_cell
        by (try reflexivity; change (sizeof U16) with 2; lia).
      cbn [convert]. rewrite to_uint16_id by assumption. reflexivity. }
    split.
    { change 2%nat with (nbytes U16).
      rewrite load_pushed_cell
        by (try reflexivity; change (sizeof U16) with 2; lia).
      cbn [convert]. rewrite to_uint16_id by assumption. reflexivity. }
    intros i Hi. rewrite !write_le_outside by (simpl; lia). reflexivity. }
  split.
  - destruct (Swap s x y Hx Hy) as (s1 & S1 & P1 & I1 & R1 & L1 & L2 & F1).
    rewrite <- P1 in L1, L2.
    destruct (Swap s1 y x L1 L2) as (s2 & S2 & P2 & I2 & R2 & M1 & M2 & F2).
    rewrite P1 in *.
    exists s1, s2. repeat split; assumption.
  - intros t Ht. unfold SWAP, bind, PStack_rd, PStack_index, lift.
    change (to_int16 (-2)) with (-2). change (to_int16 (-4)) with (-4).
    destruct (load U16 (Memory t) (PSP t + -2)); [|reflexivity].
    destruct (load U16 (Memory t) (PSP t + -4)) eqn:E; [|reflexivity].
    apply load_in_bounds in E. lia.
Qed.

Lemma SWAP_exchanges_witness :
  exists s1 s2,
    SWAP (three_cells 1 2 3) = Some (tt, s1) /\
    PSP s1 = PSP (three_cells 1 2 3) /\ IP s1 = IP (three_cells 1 2 3) /\
    RSP s1 = RSP (three_cells 1 2 3) /\
    load U16 (Memory s1) (PSP (three_cells 1 2 3) - 2) = Some 2 /\
    load U16 (Memory s1) (PSP (three_cells 1 2 3) - 4) = Some 3 /\
    (forall a, a < PSP (three_cells 1 2 3) - 4 \/ PSP (three_cells 1 2 3) <= a ->
               Memory s1 a = Memory (three_cells 1 2 3) a) /\
    SWAP s1 = Some (tt, s2) /\
    load U16 (Memory s2) (PSP (three_cells 1 2 3) - 2) = Some 3 /\
    load U16 (Memory s2) (PSP (three_cells 1 2 3) - 4) = Some 2.
Proof.
  exact (proj1 (SWAP_exchanges (three_cells 1 2 3) 3 2 eq_refl eq_refl)).
Defined.

Lemma Mem_rd_eq (T : ctype) (s : State) (addr v : Z) :
  load T (Memory s) (to_uint16 addr) = Some v ->
  Mem_rd T addr s = Some (v, s).
Proof. intros H. unfold Mem_rd, Mem_index, lift. rewrite H. reflexivity. Qed.

Lemma Mem_wr_eq (T : ctype) (s : State) (addr v : Z) :
  to_uint16 addr + sizeof T <= 65536 ->
  Mem_wr T addr v s
  = Some (tt, set_Memory s (write_le (Memory s) (to_uint16 addr) (nbytes T) v)).
Proof.
  intros H. unfold Mem_wr, Mem_index.
  rewrite store_defined by (pose proof (to_uint16_range addr) as R;
                            unfold is_uint16 in R; lia).
  reflexivity.
Qed.

(** X5. [ROT] rotates the three cells at [PSP - 6], [PSP - 4] and
    [PSP - 2] (addresses taken modulo 65536, as [Mem] takes them): the
    second goes to the first place, the third to the second, the first to
    the third; no register and no other byte changes. *)
Theorem ROT_rotates (s : State) (x1 x2 x3 : Z) :
  load U16 (Memory s) (to_uint16 (PSP s - 6)) = Some x1 ->
  load U16 (Memory s) (to_uint16 (PSP s - 4)) = Some x2 ->
  load U16 (Memory s) (to_uint16 (PSP s - 2)) = Some x3 ->
  exists s1,
    ROT s = Some (tt, s1) /\
    PSP s1 = PSP s /\ IP s1 = IP s /\ RSP s1 = RSP s /\
    load U16 (Memory s1) (to_uint16 (PSP s - 6)) = Some x2 /\
    load U16 (Memory s1) (to_uint16 (PSP s - 4)) = Some x3 /\
    load U16 (Memory s1) (to_uint16 (PSP s - 2)) = Some x1 /\
    (forall a, (forall k, 0 <= k < 6 -> a <> to_uint16 (PSP s - 6 + k)) ->
               Memory s1 a = Memory s a).
Proof.
  intros H1 H2 H3.
  pose proof (load_in_bounds _ _ _ _ H1) as [A1 B1].
  pose proof (load_in_bounds _ _ _ _ H2) as [A2 B2].
  pose proof (load_in_bounds _ _ _ _ H3) as [A3 B3].
  pose proof (load_range_U16 _ _ _ H1) as R1.
  pose proof (load_range_U16 _ _ _ H2) as R2.
  pose proof (load_range_U16 _ _ _ H3) as R3.
  change (sizeof U16) with 2 in *.
  set (a1 := to_uint16 (PSP s - 6)) in *.
  set (a2 := to_uint16 (PSP s - 4)) in *.
  set (a3 := to_uint16 (PSP s - 2)) in *.
  assert (D12 : a1 + 2 <= a2 \/ a2 + 2 <= a1)
    by (unfold a1, a2 in *; unfold_conv; lia).
  assert (D23 : a2 + 2 <= a3 \/ a3 + 2 <= a2)
    by (unfold a2, a3 in *; unfold_conv; lia).
  assert (D13 : a1 + 2 <= a3 \/ a3 + 2 <= a1)
    by (unfold a1, a3 in *; unfold_conv; lia).
  eexists. split.
  { unfold ROT. unfold bind at 1. unfold get at 1.
    erewrite bind_Some by (apply Mem_rd_eq; fold a1; exact H1).
    erewrite bind_Some by (apply Mem_rd_eq; fold a2; exact H2).
    erewrite bind_Some by (apply Mem_wr_eq; fold a1; exact B1).
    erewrite bind_Some.
    2:{ apply Mem_rd_eq. fold a3. cbn [Memory set_Memory]. fold a1.
        rewrite load_write_le_other
          by (change (sizeof U16) with 2; simpl; lia).
        exact H3. }
    erewrite bind_Some
      by (apply Mem_wr_eq; fold a2; change (sizeof U16) with 2; exact B2).
    apply Mem_wr_eq. fold a3. exact B3. }
  cbn [Memory PSP IP RSP set_Memory]. fold a1 a2 a3.
  split; [reflexivity|]. split; [reflexivity|]. split; [reflexivity|].
  change (nbytes U16) with 2%nat.
  split.
  { rewrite !load_write_le_other by (change (sizeof U16) with 2; simpl; lia).
    change 2%nat with (nbytes U16).
    rewrite load_pushed_cell by (try reflexivity; change (sizeof U16) with 2; lia).
    cbn [convert]. rewrite to_uint16_id by assumption. reflexivity. }
  split.
  { rewrite load_write_le_other by (change (sizeof U16) with 2; simpl; lia).
    change 2%nat with (nbytes U16).
    rewrite load_pushed_cell by (try reflexivity; change (sizeof U16) with 2; lia).
    cbn [convert]. rewrite to_uint16_id by assumption. reflexivity. }
  split.
  { change 2%nat with (nbytes U16).
    rewrite load_pushed_cell by (try reflexivity; change (sizeof U16) with 2; lia).
    cbn [convert]. rewrite to_uint16_id by assumption. reflexivity. }
  intros a Ha.
  pose proof (Ha 0) as K0. pose proof (Ha 1) as K1. pose proof (Ha 2) as K2.
  pose proof (Ha 3) as K3. pose proof (Ha 4) as K4. pose proof (Ha 5) as K5.
  rewrite !write_le_outside; [reflexivity | | |];
    simpl; unfold a1, a2, a3 in *; unfold_conv; lia.
Qed.

Lemma ROT_rotates_witness :
  exists s1,
    ROT (three_cells 1 2 3) = Some (tt, s1) /\
    PSP s1 = PSP (three_cells 1 2 3) /\ IP s1 = IP (three_cells 1 2 3) /\
    RSP s1 = RSP (three_cells 1 2 3) /\
    load U16 (Memory s1) (to_uint16 (PSP (three_cells 1 2 3) - 6)) = Some 2 /\
    load U16 (Memory s1) (to_uint16 (PSP (three_cells 1 2 3) - 4)) = Some 3 /\
    load U16 (Memory s1) (to_uint16 (PSP (three_cells 1 2 3) - 2)) = Some 1 /\
    (forall a, (forall k, 0 <= k < 6 ->
                          a <> to_uint16 (PSP (three_cells 1 2 3) - 6 + k)) ->
               Memory s1 a = Memory (three_cells 1 2 3) a).
Proof.
  exact (ROT_rotates (three_cells 1 2 3) 1 2 3 eq_refl eq_refl eq_refl).
Defined.

(** ** Logic and comparison *)

Lemma INVERT_eq (s : State) (x : Z) :
  load I16 (Memory s) (PSP s - 2) = Some x ->
  INVERT s
  = Some (tt, set_Memory s (write_le (Memory s) (PSP s - 2) 2 (- x - 1))) /\
  load I16 (write_le (Memory s) (PSP s - 2) 2 (- x - 1)) (PSP s - 2)
  = Some (- x - 1).
Proof.
  intros Hx.
  pose proof (load_in_bounds _ _ _ _ Hx) as [B1 B2].
  pose proof (load_range_I16 _ _ _ Hx) as Rx.
  change (PSP s - 2) with (PSP s + -2) in *.
  split.
  - unfold INVERT.
    erewrite bind_Some by (apply PStack_rd_eq; [unfold is_int16; lia | exact Hx]).
    replace (Z.lnot x) with (- x - 1) by (unfold Z.lnot; lia).
    apply PStack_wr_eq; [unfold is_int16; lia | assumption..].
  - change 2%nat with (nbytes I16).
    rewrite load_pushed_cell by (try reflexivity; assumption).
    cbn [convert]. rewrite to_int16_id by (unfold is_int16 in *; lia).
    reflexivity.
Qed.

(** X6. [INVERT] replaces the cell [x] at [PSP - 2] by its complement
    [- x - 1], which is again a signed 16-bit value, and changes nothing
    else; run twice it gives [x] back. *)
Theorem INVERT_involutive (s : State) (x : Z) :
  load I16 (Memory s) (PSP s - 2) = Some x ->
  exists s1 s2,
    INVERT s = Some (tt, s1) /\
    PSP s1 = PSP s /\ IP s1 = IP s /\ RSP s1 = RSP s /\
    load I16 (Memory s1) (PSP s - 2) = Some (- x - 1) /\
    (forall a, a < PSP s - 2 \/ PSP s <= a -> Memory s1 a = Memory s a) /\
    INVERT s1 = Some (tt, s2) /\
    load I16 (Memory s2) (PSP s - 2) = Some x.
Proof.
  intros Hx.
  destruct (INVERT_eq s x Hx) as [E1 L1].
  set (s1 := set_Memory s (write_le (Memory s) (PSP s - 2) 2 (- x - 1))) in *.
  destruct (INVERT_eq s1 (- x - 1) L1) as [E2 L2].
  exists s1. eexists.
  split; [exact E1|].
  split; [reflexivity|]. split; [reflexivity|]. split; [reflexivity|].
  split; [exact L1|].
  split.
  { intros a Ha. unfold s1. cbn [Memory set_Memory].
    apply write_le_outside. simpl. lia. }
  split; [exact E2|].
  cbn [Memory set_Memory]. change (PSP s1) with (PSP s) in *.
  replace (- (- x - 1) - 1) with x in * by lia. exact L2.
Qed.

Lemma INVERT_involutive_witness :
  exists s1 s2,
    INVERT (three_cells 1 2 3) = Some (tt, s1) /\
    PSP s1 = PSP (three_cells 1 2 3) /\ IP s1 = IP (three_cells 1 2 3) /\
    RSP s1 = RSP (three_cells 1 2 3) /\
    load I16 (Memory s1) (PSP (three_cells 1 2 3) - 2) = Some (- 3 - 1) /\
    (forall a, a < PSP (three_cells 1 2 3) - 2 \/ PSP (three_cells 1 2 3) <= a ->
               Memory s1 a = Memory (three_cells 1 2 3) a) /\
    INVERT s1 = Some (tt, s2) /\
    load I16 (Memory s2) (PSP (three_cells 1 2 3) - 2) = Some 3.
Proof.
  exact (INVERT_involutive (three_cells 1 2 3) 3 eq_refl).
Defined.

(** X7. The comparisons leave a canonical flag: with [Value] the cell
    popped and [x] the cell then at [PSP - 2], [=] leaves [-1] there when
    [x = Value] and [0] otherwise, [<] leaves [-1] when [x < Value] as
    signed numbers and [0] otherwise; [PSP] has gone down by one cell. *)
Theorem comparison_flags (s s1 : State) (Value x : Z) :
  PStack_Pop I16 s = Some (Value, s1) ->
  load I16 (Memory s1) (PSP s1 - 2) = Some x ->
  (exists s', EQU s = Some (tt, s') /\ PSP s' = to_uint16 (PSP s - 2) /\
              (x = Value -> load I16 (Memory s') (PSP s' - 2) = Some (-1)) /\
              (x <> Value -> load I16 (Memory s') (PSP s' - 2) = Some 0)) /\
  (exists s', LT s = Some (tt, s') /\ PSP s' = to_uint16 (PSP s - 2) /\
              (x < Value -> load I16 (Memory s') (PSP s' - 2) = Some (-1)) /\
              (Value <= x -> load I16 (Memory s') (PSP s' - 2) = Some 0)).
Proof.
  intros Hpop Hx.
  assert (Ep : PSP s1 = to_uint16 (PSP s - 2)).
  { rewrite PStack_Pop_eq in Hpop. destruct (load I16 _ _); [|discriminate].
    injection Hpop as _ <-. reflexivity. }
  split.
  - destruct (binop_eq (fun a b => if a =? b then -1 else 0) s s1 Value x Hpop Hx)
      as (s' & E & P & L).
    exists s'. split; [exact E|]. rewrite P. split; [exact Ep|].
    split; intros H; rewrite L.
    + destruct (Z.eqb_spec x Value); [reflexivity | contradiction].
    + destruct (Z.eqb_spec x Value); [contradiction | reflexivity].
  - destruct (binop_eq (fun a b => if a <? b then -1 else 0) s s1 Value x Hpop Hx)
      as (s' & E & P & L).
    exists s'. split; [exact E|]. rewrite P. split; [exact Ep|].
    split; intros H; rewrite L.
    + destruct (Z.ltb_spec x Value); [reflexivity | lia].
    + destruct (Z.ltb_spec x Value); [lia | reflexivity].
Qed.

Lemma comparison_flags_witness :
  exists s', EQU (mixed_state 7 7) = Some (tt, s') /\
             PSP s' = to_uint16 (PSP (mixed_state 7 7) - 2) /\
             (7 = 7 -> load I16 (Memory s') (PSP s' - 2) = Some (-1)) /\
             (7 <> 7 -> load I16 (Memory s') (PSP s' - 2) = Some 0).
Proof.
  exact (proj1 (comparison_flags (mixed_state 7 7)
                  (set_PSP (mixed_state 7 7) 4098) 7 7 eq_refl eq_refl)).
Defined.

(** ** Words dispatched by the loop *)

Lemma cycle_eq (s : State) (target opcode : Z) (f : M unit) :
  load U16 (Memory s) (to_uint16 (IP s)) = Some target ->
  load U16 (Memory s) (to_uint16 target) = Some opcode ->
  nth_error NativeFuncs (Z.to_nat opcode) = Some f ->
  cycle s = f (set_IP s (to_uint16 (IP s + 2))).
Proof.
  intros Ht Ho Hf. unfold cycle.
  unfold bind at 1. unfold get at 1.
  rewrite (bind_Some _ _ _ _ _ (Mem_rd_eq U16 s (IP s) target Ht)).
  rewrite (bind_Some _ _ _ _ _ (Mem_rd_eq U16 s target opcode Ho)).
  unfold bind, get, modify, call_native. rewrite Hf. reflexivity.
Qed.

Lemma to_uint16_back (ip : Z) : to_uint16 (to_uint16 (ip + 2) - 2) = to_uint16 ip.
Proof. unfold_conv. lia. Qed.

(** X8. An inline literal: when the thread cell at [IP] names the code
    field of [LIT] and the next cell holds [v], one cycle of the loop pushes
    [v] onto the parameter stack and leaves [IP] past the literal, 4 above
    where it was. *)
Theorem cycle_LIT (s : State) (target v : Z) :
  is_uint16 (PSP s) ->
  load U16 (Memory s) (to_uint16 (IP s)) = Some target ->
  load U16 (Memory s) (to_uint16 target) = Some 19 ->
  load I16 (Memory s) (to_uint16 (IP s + 2)) = Some v ->
  exists s',
    cycle s = Some (tt, s') /\
    IP s' = to_uint16 (IP s + 4) /\ RSP s' = RSP s /\
    PSP s' = to_uint16 (PSP s + 2) /\
    PStack_Pop I16 s' = Some (v, set_PSP s' (PSP s)).
Proof.
  intros Hp Ht Ho Hv.
  set (s0 := set_IP s (to_uint16 (IP s + 2))).
  set (s1 := PStack_pushed I16 v s0).
  exists (set_IP s1 (to_uint16 (IP s1 + 2))).
  split.
  { rewrite (cycle_eq s target 19 LIT Ht Ho eq_refl). fold s0.
    unfold LIT. unfold bind at 1. unfold get at 1.
    erewrite bind_Some.
    2:{ apply Mem_rd_eq. cbn [IP Memory s0 set_IP].
        rewrite to_uint16_idem. exact Hv. }
    erewrite bind_Some
      by (apply PStack_Push_eq; [exact Hp | apply doubled_in_bounds; reflexivity]).
    reflexivity. }
  cbn [IP RSP PSP s1 s0 set_IP PStack_pushed].
  split; [unfold_conv; lia|]. split; [reflexivity|]. split; [reflexivity|].
  assert (Hc : convert I16 v = v)
    by (apply to_int16_id; eapply load_range_I16; exact Hv).
  exact (PStack_push_pop I16 (set_IP s0 (to_uint16 (IP s1 + 2))) v eq_refl Hc Hp).
Qed.

Lemma cycle_LIT_witness :
  exists s',
    cycle lit_thread_state = Some (tt, s') /\
    IP s' = to_uint16 (IP lit_thread_state + 4) /\
    RSP s' = RSP lit_thread_state /\
    PSP s' = to_uint16 (PSP lit_thread_state + 2) /\
    PStack_Pop I16 s' = Some (-5, set_PSP s' (PSP lit_thread_state)).
Proof.
  apply (cycle_LIT lit_thread_state 8448 (-5)).
  - unfold is_uint16. simpl. lia.
  - reflexivity.
  - reflexivity.
  - reflexivity.
Defined.

(** X9. A constant word: when the thread cell at [IP] names a code field
    holding the opcode of [DOCON], one cycle pushes the body cell that
    follows that code field and leaves [IP] at the next thread cell. The
    primitive finds the code field again through the cell at [IP - 2], the
    one the loop has just consumed. *)
Theorem cycle_constant_word (s : State) (target c : Z) :
  is_uint16 (PSP s) ->
  load U16 (Memory s) (to_uint16 (IP s)) = Some target ->
  load U16 (Memory s) (to_uint16 target) = Some 1 ->
  load I16 (Memory s) (to_uint16 (target + 2)) = Some c ->
  exists s',
    cycle s = Some (tt, s') /\
    IP s' = to_uint16 (IP s + 2) /\ RSP s' = RSP s /\
    PSP s' = to_uint16 (PSP s + 2) /\
    PStack_Pop I16 s' = Some (c, set_PSP s' (PSP s)).
Proof.
  intros Hp Ht Ho Hc.
  set (s0 := set_IP s (to_uint16 (IP s + 2))).
  exists (PStack_pushed I16 c s0).
  split.
  { rewrite (cycle_eq s target 1 DOCON Ht Ho eq_refl). fold s0.
    apply (DOCON_eq s0 target c); [exact Hp | | exact Hc].
    cbn [IP Memory s0 set_IP]. rewrite to_uint16_back. exact Ht. }
  split; [reflexivity|]. split; [reflexivity|]. split; [reflexivity|].
  assert (Hcv : convert I16 c = c)
    by (apply to_int16_id; eapply load_range_I16; exact Hc).
  exact (PStack_push_pop I16 s0 c eq_refl Hcv Hp).
Qed.

Lemma cycle_constant_word_witness :
  exists s',
    cycle const_thread_state = Some (tt, s') /\
    IP s' = to_uint16 (IP const_thread_state + 2) /\
    RSP s' = RSP const_thread_state /\
    PSP s' = to_uint16 (PSP const_thread_state + 2) /\
    PStack_Pop I16 s' = Some (42, set_PSP s' (PSP const_thread_state)).
Proof.
  apply (cycle_constant_word const_thread_state 8448 42).
  - unfold is_uint16. simpl. lia.
  - reflexivity.
  - reflexivity.
  - reflexivity.
Defined.

Lemma load_U16_halves_of_int (m : memory) (i v : Z) :
  0 <= i -> i + 4 <= 65536 ->
  load U16 (write_le m i 4 v) i = Some (v mod 65536) /\
  load U16 (write_le m i 4 v) (i + 2) = Some ((v / 65536) mod 65536).
Proof.
  intros H1 H2.
  assert (B : forall j, 0 <= j < 4 ->
            write_le m i 4 v (i + j)
            = match j with
              | 0 => v mod 256
              | 1 => (v / 256) mod 256
              | 2 => (v / 256 / 256) mod 256
              | _ => (v / 256 / 256 / 256) mod 256
              end).
  { intros j Hj. cbn [write_le]. unfold set_byte.
    assert (j = 0 \/ j = 1 \/ j = 2 \/ j = 3) as [->|[->|[->| ->]]] by lia;
      repeat match goal with
             | |- context [?a =? ?b] => destruct (Z.eqb_spec a b); try lia
             end; reflexivity. }
  pose proof (B 0 ltac:(lia)) as B0. pose proof (B 1 ltac:(lia)) as B1.
  pose proof (B 2 ltac:(lia)) as B2. pose proof (B 3 ltac:(lia)) as B3.
  cbv beta iota in B0, B1, B2, B3.
  replace (i + 0) with i in B0 by lia.
  split.
  - rewrite load_defined by (change (sizeof U16) with 2; lia).
    cbn [read_le nbytes convert]. rewrite B0, B1. f_equal. unfold_conv. lia.
  - rewrite load_defined by (change (sizeof U16) with 2; lia).
    cbn [read_le nbytes convert].
    replace (i + 2 + 1) with (i + 3) by lia.
    rewrite B2, B3. f_equal. unfold_conv. lia.
Qed.

(** X10. A variable word: when the thread cell at [IP] names a code field
    holding the opcode of [DOVAR], one cycle leaves [IP] at the next thread
    cell and pushes the address of the body, [target + 2], as a 4-byte
    [int]: its low half lies at the doubled [PSP], its high half (0, or 1
    when [target + 2] passes 65535) in the next cell, and [PSP] has moved by
    4. Of the two 16-bit pops that bring [PSP] back, the first reads a cell
    the word did not write, and only the second yields the address. *)
Theorem cycle_variable_word (s : State) (target : Z) :
  is_uint16 (PSP s) -> doubled (PSP s) + 4 <= 65536 ->
  load U16 (Memory s) (to_uint16 (IP s)) = Some target ->
  load U16 (Memory s) (to_uint16 target) = Some 2 ->
  exists s' w,
    cycle s = Some (tt, s') /\
    IP s' = to_uint16 (IP s + 2) /\ RSP s' = RSP s /\
    PSP s' = to_uint16 (PSP s + 4) /\
    load U16 (Memory s') (doubled (PSP s)) = Some (to_uint16 (target + 2)) /\
    load U16 (Memory s') (doubled (PSP s) + 2) = Some ((target + 2) / 65536) /\
    load U16 (Memory s) (doubled (to_uint16 (PSP s + 2))) = Some w /\
    PStack_Pop U16 s' = Some (w, set_PSP s' (to_uint16 (PSP s + 2))) /\
    PStack_Pop U16 (set_PSP s' (to_uint16 (PSP s + 2)))
    = Some (to_uint16 (target + 2), set_PSP s' (PSP s)).
Proof.
  intros Hp Hb Ht Ho.
  pose proof (load_range_U16 _ _ _ Ht) as Rt.
  pose proof (doubled_even_bound (PSP s)) as Hd.
  set (s0 := set_IP s (to_uint16 (IP s + 2))).
  set (s' := PStack_pushed I32 (target + 2) s0).
  destruct (load_U16_halves_of_int (Memory s) (doubled (PSP s)) (target + 2))
    as [Lo Hi]; [lia | lia |].
  assert (Hhi : ((target + 2) / 65536) mod 65536 = (target + 2) / 65536)
    by (unfold is_uint16 in Rt; lia).
  rewrite Hhi in Hi.
  destruct (load U16 (Memory s) (doubled (to_uint16 (PSP s + 2)))) as [w|] eqn:Hw.
  2:{ rewrite pop_defined in Hw by reflexivity. discriminate. }
  exists s', w.
  split.
  { rewrite (cycle_eq s target 2 DOVAR Ht Ho eq_refl). fold s0.
    apply DOVAR_eq; [exact Hp | exact Hb |].
    cbn [IP Memory s0 set_IP]. rewrite to_uint16_back. exact Ht. }
  split; [reflexivity|]. split; [reflexivity|]. split; [reflexivity|].
  split; [exact Lo|]. split; [exact Hi|]. split; [reflexivity|].
  assert (E1 : to_uint16 (PSP s' - 2) = to_uint16 (PSP s + 2)).
  { unfold s'. cbn [PSP PStack_pushed s0 set_IP]. change (sizeof I32) with 4.
    unfold_conv. lia. }
  assert (E2 : to_uint16 (to_uint16 (PSP s + 2) - 2) = PSP s)
    by (apply to_uint16_push_pop; exact Hp).
  split.
  - rewrite PStack_Pop_eq. change (sizeof U16) with 2. rewrite E1.
    unfold s' at 1. cbn [Memory PStack_pushed s0 set_IP PSP].
    rewrite load_write_le_other; [rewrite Hw; reflexivity|].
    change (sizeof U16) with 2. unfold doubled in *. unfold_conv. simpl. lia.
  - rewrite PStack_Pop_eq. change (sizeof U16) with 2.
    cbn [PSP set_PSP Memory]. rewrite E2.
    unfold s' at 1. cbn [Memory PStack_pushed s0 set_IP PSP].
    change (nbytes I32) with 4%nat. rewrite Lo. reflexivity.
Qed.

Lemma cycle_variable_word_witness :
  exists s' w,
    cycle var_thread_state = Some (tt, s') /\
    IP s' = to_uint16 (IP var_thread_state + 2) /\
    RSP s' = RSP var_thread_state /\
    PSP s' = to_uint16 (PSP var_thread_state + 4) /\
    load U16 (Memory s') (doubled (PSP var_thread_state))
    = Some (to_uint16 (8448 + 2)) /\
    load U16 (Memory s') (doubled (PSP var_thread_state) + 2)
    = Some ((8448 + 2) / 65536) /\
    load U16 (Memory var_thread_state)
         (doubled (to_uint16 (PSP var_thread_state + 2))) = Some w /\
    PStack_Pop U16 s'
    = Some (w, set_PSP s' (to_uint16 (PSP var_thread_state + 2))) /\
    PStack_Pop U16 (set_PSP s' (to_uint16 (PSP var_thread_state + 2)))
    = Some (to_uint16 (8448 + 2), set_PSP s' (PSP var_thread_state)).
Proof.
  apply (cycle_variable_word var_thread_state 8448).
  - unfold is_uint16. simpl. lia.
  - vm_compute. discriminate.
  - reflexivity.
  - reflexivity.
Defined.

(** X11. Call and return through the loop: the thread cell at [IP] names a
    colon word whose body is the single cell naming [EXIT]. Provided the
    return-stack cell (the two bytes at the doubled [RSP]) overlaps none of
    the three cells the two cycles read after the push, two cycles of the
    loop enter the word and leave it again: [IP] is at the next cell of the
    calling thread, [RSP] and [PSP] are what they were, and only the
    return-stack cell has been written. *)
Theorem cycles_call_return (s : State) (w e : Z) :
  is_uint16 (IP s) -> is_uint16 (RSP s) ->
  load U16 (Memory s) (IP s) = Some w ->
  load U16 (Memory s) w = Some 0 ->
  load U16 (Memory s) (to_uint16 (w + 2)) = Some e ->
  load U16 (Memory s) e = Some 3 ->
  (forall c, c = IP s \/ c = to_uint16 (w + 2) \/ c = e ->
             c + 2 <= doubled (RSP s) \/ doubled (RSP s) + 2 <= c) ->
  exists s',
    cycles 2 s = Some (tt, s') /\
    IP s' = to_uint16 (IP s + 2) /\ RSP s' = RSP s /\ PSP s' = PSP s /\
    (forall a, a <> doubled (RSP s) -> a <> doubled (RSP s) + 1 ->
               Memory s' a = Memory s a).
Proof.
  intros Hip Hr Hw Hw0 He He3 Sep.
  pose proof (load_range_U16 _ _ _ Hw) as Rw.
  pose proof (load_range_U16 _ _ _ He) as Re.
  pose proof (doubled_even_bound (RSP s)) as Hd.
  pose proof (Sep (IP s) (or_introl eq_refl)) as S1.
  pose proof (Sep (to_uint16 (w + 2)) (or_intror (or_introl eq_refl))) as S2.
  pose proof (Sep e (or_intror (or_intror eq_refl))) as S3.
  set (ip1 := to_uint16 (IP s + 2)).
  set (s0 := set_IP s ip1).
  set (sp := RStack_pushed U16 ip1 s0).
  set (s1 := set_IP sp (to_uint16 (w + 2))).
  assert (Other : forall c v, load U16 (Memory s) c = Some v ->
            c + 2 <= doubled (RSP s) \/ doubled (RSP s) + 2 <= c ->
            load U16 (Memory s1) c = Some v).
  { intros c v Hc Hs. cbn [Memory s1 sp s0 set_IP RStack_pushed RSP].
    rewrite load_write_le_other; [exact Hc|].
    change (sizeof U16) with 2. simpl. lia. }
  assert (C1 : cycle s = Some (tt, s1)).
  { rewrite (cycle_eq s w 0 DOCOL); [| | | reflexivity].
    - fold ip1 s0. apply (DOCOL_eq s0 w); [exact Hr|].
      cbn [IP s0 set_IP]. unfold ip1. rewrite to_uint16_back.
      rewrite (to_uint16_id (IP s)) by exact Hip.
      apply (Other (IP s) w Hw S1).
    - rewrite to_uint16_id by exact Hip. exact Hw.
    - rewrite to_uint16_id by exact Rw. exact Hw0. }
  assert (Saved : load U16 (Memory s1) (doubled (RSP s)) = Some ip1).
  { cbn [Memory s1 sp s0 set_IP RStack_pushed RSP].
    rewrite load_pushed_cell by (try reflexivity; change (sizeof U16) with 2; lia).
    cbn [convert]. unfold ip1. rewrite to_uint16_idem. reflexivity. }
  set (s2 := set_IP s1 (to_uint16 (IP s1 + 2))).
  assert (C2 : cycle s1
               = Some (tt, set_IP (set_RSP s2 (to_uint16 (RSP s2 - 2))) ip1)).
  { rewrite (cycle_eq s1 e 3 EXIT); [| | | reflexivity].
    - fold s2. apply EXIT_eq.
      cbn [RSP Memory s2 s1 sp s0 set_IP RStack_pushed].
      change (sizeof U16) with 2.
      rewrite to_uint16_push_pop by exact Hr. exact Saved.
    - cbn [IP s1 set_IP]. rewrite to_uint16_idem.
      apply (Other _ e He S2).
    - rewrite to_uint16_id by exact Re. apply (Other e 3 He3 S3). }
  eexists. split.
  { cbn [cycles]. rewrite (bind_Some _ _ _ _ _ C1).
    rewrite (bind_Some _ _ _ _ _ C2). reflexivity. }
  cbn [IP RSP PSP Memory set_IP set_RSP s2 s1 sp s0 RStack_pushed].
  split; [reflexivity|].
  split; [change (sizeof U16) with 2; apply to_uint16_push_pop; exact Hr|].
  split; [reflexivity|].
  intros a H1 H2. apply write_le_outside. simpl. lia.
Qed.

Lemma cycles_call_return_witness :
  exists s',
    cycles 2 call_thread_state = Some (tt, s') /\
    IP s' = to_uint16 (IP call_thread_state + 2) /\
    RSP s' = RSP call_thread_state /\ PSP s' = PSP call_thread_state /\
    (forall a, a <> doubled (RSP call_thread_state) ->
               a <> doubled (RSP call_thread_state) + 1 ->
               Memory s' a = Memory call_thread_state a).
Proof.
  apply (cycles_call_return call_thread_state 8448 8460).
  - unfold is_uint16. simpl. lia.
  - unfold is_uint16. simpl. lia.
  - reflexivity.
  - reflexivity.
  - reflexivity.
  - reflexivity.
  - intros c [-> | [-> | ->]]; right; vm_compute; discriminate.
Defined.

(** X12. The loop does not halt by itself: on a thread whose cell at [IP]
    names [BRANCH] with the offset [-2], every cycle is defined and leaves
    the machine in the state it started from, whatever the number of
    cycles. *)
Theorem cycles_branch_to_self (n : nat) (s : State) (target : Z) :
  is_uint16 (IP s) ->
  load U16 (Memory s) (IP s) = Some target ->
  load U16 (Memory s) target = Some 26 ->
  load I16 (Memory s) (to_uint16 (IP s + 2)) = Some (-2) ->
  cycles n s = Some (tt, s).
Proof.
  intros Hip Ht Ho Hoff.
  pose proof (load_range_U16 _ _ _ Ht) as Rt.
  assert (C : cycle s = Some (tt, s)).
  { rewrite (cycle_eq s target 26 BRANCH); [| | | reflexivity].
    - unfold BRANCH, bind, get, modify. cbn [IP set_IP].
      erewrite (Mem_rd_eq I16 (set_IP s (to_uint16 (IP s + 2))))
        by (cbn [Memory set_IP]; rewrite to_uint16_idem; exact Hoff).
      destruct s as [m ip r p i o]. cbn [IP set_IP Memory RSP PSP cin cout] in *.
      unfold set_IP. cbn [IP Memory RSP PSP cin cout].
      replace (to_uint16 (to_uint16 (ip + 2) + -2)) with ip
        by (unfold_conv; lia).
      reflexivity.
    - rewrite to_uint16_id by exact Hip. exact Ht.
    - rewrite to_uint16_id by exact Rt. exact Ho. }
  induction n as [|k IH].
  - reflexivity.
  - cbn [cycles]. rewrite (bind_Some _ _ _ _ _ C). exact IH.
Qed.

Lemma cycles_branch_to_self_witness :
  cycles 1000 loop_thread_state = Some (tt, loop_thread_state).
Proof.
  apply (cycles_branch_to_self 1000 loop_thread_state 8448).
  - unfold is_uint16. simpl. lia.
  - reflexivity.
  - reflexivity.
  - reflexivity.
Defined.

(** ** Cell store, fetch and add-store *)

(** A cell [v] and, on top of it, an address [a]: the state after the two
    pushes, and the two pops that take them off again. *)
Lemma operand_and_address (s : State) (v a : Z) :
  is_uint16 (PSP s) -> is_int16 v -> is_uint16 a ->
  (PStack_Push I16 v ;; PStack_Push U16 a) s
  = Some (tt, PStack_pushed U16 a (PStack_pushed I16 v s)) /\
  PStack_Pop U16 (PStack_pushed U16 a (PStack_pushed I16 v s))
  = Some (a, set_PSP (PStack_pushed U16 a (PStack_pushed I16 v s))
                     (to_uint16 (PSP s + 2))) /\
  PStack_Pop I16 (set_PSP (PStack_pushed U16 a (PStack_pushed I16 v s))
                          (to_uint16 (PSP s + 2)))
  = Some (v, set_PSP (PStack_pushed U16 a (PStack_pushed I16 v s)) (PSP s)).
Proof.
  intros Hp Hv Ha.
  set (sa := PStack_pushed I16 v s).
  set (sb := PStack_pushed U16 a sa).
  assert (Hpa : is_uint16 (PSP sa)) by apply to_uint16_range.
  assert (Epa : to_uint16 (PSP sa - 2) = PSP s)
    by (apply to_uint16_push_pop; assumption).
  split.
  { erewrite bind_Some
      by (apply PStack_Push_eq; [assumption | apply doubled_in_bounds; reflexivity]).
    apply PStack_Push_eq; [exact Hpa | apply doubled_in_bounds; reflexivity]. }
  split.
  { exact (PStack_push_pop U16 sa a eq_refl (to_uint16_id a Ha) Hpa). }
  change (to_uint16 (PSP s + 2)) with (PSP sa).
  rewrite <- Epa. apply PStack_pop_second; try reflexivity; [assumption|].
  rewrite Epa. unfold sa. cbn [Memory PStack_pushed].
  pose proof (doubled_even_bound (PSP s)).
  rewrite load_pushed_cell by (try reflexivity; change (sizeof I16) with 2; lia).
  cbn [convert]. rewrite to_int16_id by assumption. reflexivity.
Qed.

(** X13. [!] with the cell [v] and the address [a] on the parameter stack
    writes [v] to the two bytes at [a] and takes both operands off; when
    [a] is pushed again and [@] run, the cell on top of the stack is [v],
    provided the cell at [a] is clear of the stack cell that carries [a].
    At [a = 0xFFFF] the second byte would lie outside memory: [!] is
    undefined there. *)
Theorem cell_store_fetch (s : State) (v a : Z) :
  is_uint16 (PSP s) -> is_int16 v -> is_uint16 a ->
  (a <= 65534 ->
   exists s1,
     (PStack_Push I16 v ;; PStack_Push U16 a ;; STORE) s = Some (tt, s1) /\
     load I16 (Memory s1) a = Some v /\
     PSP s1 = PSP s /\ IP s1 = IP s /\ RSP s1 = RSP s /\
     (a + 2 <= doubled (PSP s) \/ doubled (PSP s) + 2 <= a ->
      exists s2,
        (PStack_Push U16 a ;; FETCH) s1 = Some (tt, s2) /\
        PStack_Pop I16 s2 = Some (v, set_PSP s2 (PSP s)))) /\
  (a = 65535 ->
   (PStack_Push I16 v ;; PStack_Push U16 a ;; STORE) s = None).
Proof.
  intros Hp Hv Ha.
  destruct (operand_and_address s v a Hp Hv Ha) as (Push2 & P1 & P2).
  set (sb := PStack_pushed U16 a (PStack_pushed I16 v s)) in *.
  assert (Pushes : forall k : unit -> M unit,
            (PStack_Push I16 v ;; PStack_Push U16 a ;; k tt) s = k tt sb).
  { intros k. unfold bind in *.
    destruct (PStack_Push I16 v s) as [[[] sa]|]; [|discriminate].
    destruct (PStack_Push U16 a sa) as [[[] sb']|]; [|discriminate].
    injection Push2 as ->. reflexivity. }
  split.
  - intros Hle.
    set (t := set_PSP sb (PSP s)).
    set (s1 := set_Memory t (write_le (Memory t) a 2 v)).
    assert (St : STORE sb = Some (tt, s1)).
    { unfold STORE. rewrite (bind_Some _ _ _ _ _ P1), (bind_Some _ _ _ _ _ P2).
      fold t. rewrite Mem_wr_eq
        by (rewrite to_uint16_id by exact Ha; change (sizeof I16) with 2; lia).
      rewrite to_uint16_id by exact Ha. reflexivity. }
    assert (L1 : load I16 (Memory s1) a = Some v).
    { unfold s1. cbn [Memory set_Memory]. change 2%nat with (nbytes I16).
      rewrite load_pushed_cell
        by (try reflexivity; unfold is_uint16 in Ha; change (sizeof I16) with 2; lia).
      cbn [convert]. rewrite to_int16_id by assumption. reflexivity. }
    exists s1.
    split; [rewrite (Pushes (fun _ => STORE)); exact St|].
    split; [exact L1|].
    split; [reflexivity|]. split; [reflexivity|]. split; [reflexivity|].
    intros Sep.
    assert (Hp1 : is_uint16 (PSP s1)) by exact Hp.
    set (sc := PStack_pushed U16 a s1).
    assert (P3 : PStack_Pop U16 sc = Some (a, set_PSP sc (PSP s1)))
      by exact (PStack_push_pop U16 s1 a eq_refl (to_uint16_id a Ha) Hp1).
    assert (L2 : load I16 (Memory (set_PSP sc (PSP s1))) (to_uint16 a) = Some v).
    { rewrite to_uint16_id by exact Ha. cbn [Memory set_PSP sc PStack_pushed].
      rewrite load_write_le_other; [exact L1|].
      change (sizeof I16) with 2. cbn [PSP s1 t set_Memory set_PSP]. simpl. lia. }
    eexists. split.
    { erewrite bind_Some
        by (apply PStack_Push_eq; [exact Hp1 | apply doubled_in_bounds; reflexivity]).
      fold sc. unfold FETCH. rewrite (bind_Some _ _ _ _ _ P3).
      rewrite (bind_Some _ _ _ _ _ (Mem_rd_eq I16 _ a v L2)).
      apply PStack_Push_eq; [exact Hp | apply doubled_in_bounds; reflexivity]. }
    exact (PStack_push_pop I16 (set_PSP sc (PSP s1)) v eq_refl
             (to_int16_id v Hv) Hp).
  - intros ->. rewrite (Pushes (fun _ => STORE)).
    unfold STORE. rewrite (bind_Some _ _ _ _ _ P1), (bind_Some _ _ _ _ _ P2).
    reflexivity.
Qed.

Lemma cell_store_fetch_witness :
  exists s1,
    (PStack_Push I16 (-1234) ;; PStack_Push U16 12288 ;; STORE)
      (initial zero_memory []) = Some (tt, s1) /\
    load I16 (Memory s1) 12288 = Some (-1234) /\
    PSP s1 = PSP (initial zero_memory []) /\
    IP s1 = IP (initial zero_memory []) /\
    RSP s1 = RSP (initial zero_memory []) /\
    (12288 + 2 <= doubled (PSP (initial zero_memory [])) \/
     doubled (PSP (initial zero_memory [])) + 2 <= 12288 ->
     exists s2,
       (PStack_Push U16 12288 ;; FETCH) s1 = Some (tt, s2) /\
       PStack_Pop I16 s2 = Some (-1234, set_PSP s2 (PSP (initial zero_memory [])))).
Proof.
  assert (Hp : is_uint16 (PSP (initial zero_memory [])))
    by (unfold is_uint16; simpl; lia).
  assert (Hv : is_int16 (-1234)) by (unfold is_int16; lia).
  assert (Ha : is_uint16 12288) by (unfold is_uint16; lia).
  apply (proj1 (cell_store_fetch (initial zero_memory []) (-1234) 12288 Hp Hv Ha)).
  lia.
Defined.

(** X14. [+!] with the cell [n] and the address [a] on the parameter stack
    adds [n] into the cell at [a], wrapping to a signed 16-bit value, and
    takes both operands off, provided the cell at [a] is clear of the two
    stack cells that carry the operands. *)
Theorem add_store (s : State) (n a x : Z) :
  is_uint16 (PSP s) -> is_int16 n -> is_uint16 a ->
  load I16 (Memory s) a = Some x ->
  a + 2 <= doubled (PSP s) \/ doubled (PSP s) + 2 <= a ->
  a + 2 <= doubled (to_uint16 (PSP s + 2)) \/
  doubled (to_uint16 (PSP s + 2)) + 2 <= a ->
  exists s1,
    (PStack_Push I16 n ;; PStack_Push U16 a ;; ADD_STORE) s = Some (tt, s1) /\
    load I16 (Memory s1) a = Some (to_int16 (x + n)) /\
    PSP s1 = PSP s /\ IP s1 = IP s /\ RSP s1 = RSP s.
Proof.
  intros Hp Hn Ha Hx Sep1 Sep2.
  pose proof (load_in_bounds _ _ _ _ Hx) as [B1 B2].
  change (sizeof I16) with 2 in B2.
  destruct (operand_and_address s n a Hp Hn Ha) as (Push2 & P1 & P2).
  set (sb := PStack_pushed U16 a (PStack_pushed I16 n s)) in *.
  set (t := set_PSP sb (PSP s)).
  assert (Lx : load I16 (Memory t) (to_uint16 a) = Some x).
  { rewrite (to_uint16_id a) by exact Ha.
    cbn [Memory t set_PSP sb PStack_pushed PSP].
    rewrite !load_write_le_other; [exact Hx | |];
      change (sizeof I16) with 2; simpl; lia. }
  eexists. split.
  { assert (Pushes : (PStack_Push I16 n ;; PStack_Push U16 a ;; ADD_STORE) s
                     = ADD_STORE sb).
    { unfold bind in Push2 |- *.
      destruct (PStack_Push I16 n s) as [[[] sa]|]; [|discriminate].
      destruct (PStack_Push U16 a sa) as [[[] sb']|]; [|discriminate].
      injection Push2 as ->. reflexivity. }
    rewrite Pushes. unfold ADD_STORE.
    rewrite (bind_Some _ _ _ _ _ P1), (bind_Some _ _ _ _ _ P2).
    fold t. rewrite (bind_Some _ _ _ _ _ (Mem_rd_eq I16 t a x Lx)).
    apply Mem_wr_eq. rewrite (to_uint16_id a) by exact Ha.
    change (sizeof I16) with 2. lia. }
  cbn [Memory PSP IP RSP set_Memory t set_PSP sb PStack_pushed].
  split; [|repeat split].
  rewrite (to_uint16_id a) by exact Ha.
  apply (load_pushed_cell I16 I16); [reflexivity | lia | change (sizeof I16) with 2; lia].
Qed.

Lemma add_store_witness :
  exists s1,
    (PStack_Push I16 1 ;; PStack_Push U16 4096 ;; ADD_STORE)
      (divmod_state 32767 0) = Some (tt, s1) /\
    load I16 (Memory s1) 4096 = Some (to_int16 (32767 + 1)) /\
    PSP s1 = PSP (divmod_state 32767 0) /\
    IP s1 = IP (divmod_state 32767 0) /\
    RSP s1 = RSP (divmod_state 32767 0).
Proof.
  apply (add_store (divmod_state 32767 0) 1 4096 32767).
  - unfold is_uint16. simpl. lia.
  - unfold is_int16. lia.
  - unfold is_uint16. lia.
  - reflexivity.
  - left. vm_compute. discriminate.
  - left. vm_compute. discriminate.
Defined.

(** ** The registers stay 16-bit values *)

Lemma keeps_ret {A} (a : A) (Q : A -> Prop) : Q a -> keeps (ret a) Q.
Proof. intros H s b s' Hs E. injection E as <- <-. split; assumption. Qed.

Lemma keeps_bind {A B} (c : M A) (k : A -> M B) (Q : A -> Prop) (R : B -> Prop) :
  keeps c Q -> (forall a, Q a -> keeps (k a) R) -> keeps (bind c k) R.
Proof.
  intros Hc Hk s b s' Hs E.
  apply bind_inv in E as (a & s1 & E1 & E2).
  destruct (Hc s a s1 Hs E1) as [Hs1 Ha].
  exact (Hk a Ha s1 b s' Hs1 E2).
Qed.

Lemma keeps_undefined {A} (Q : A -> Prop) : keeps undefined Q.
Proof. intros s a s' _ E. discriminate. Qed.

Lemma keeps_get_IP : keeps (get IP) is_uint16.
Proof. intros s a s' Hs E. injection E as <- <-. split; [exact Hs | apply Hs]. Qed.

Lemma keeps_get_RSP : keeps (get RSP) is_uint16.
Proof. intros s a s' Hs E. injection E as <- <-. split; [exact Hs | apply Hs]. Qed.

Lemma keeps_get_PSP : keeps (get PSP) is_uint16.
Proof. intros s a s' Hs E. injection E as <- <-. split; [exact Hs | apply Hs]. Qed.

Lemma keeps_set_IP (v : Z) :
  is_uint16 v -> keeps (modify (fun s => set_IP s v)) (fun _ => True).
Proof.
  intros Hv s a s' (H1 & H2 & H3) E. injection E as _ <-.
  split; [|exact I]. split; [exact Hv | split; assumption].
Qed.

Lemma keeps_set_RSP (v : Z) :
  is_uint16 v -> keeps (modify (fun s => set_RSP s v)) (fun _ => True).
Proof.
  intros Hv s a s' (H1 & H2 & H3) E. injection E as _ <-.
  split; [|exact I]. split; [exact H1 | split; [exact Hv | exact H3]].
Qed.

Lemma keeps_set_PSP (v : Z) :
  is_uint16 v -> keeps (modify (fun s => set_PSP s v)) (fun _ => True).
Proof.
  intros Hv s a s' (H1 & H2 & H3) E. injection E as _ <-.
  split; [|exact I]. split; [exact H1 | split; [exact H2 | exact Hv]].
Qed.

Lemma keeps_Mem_rd_U16 (addr : Z) : keeps (Mem_rd U16 addr) is_uint16.
Proof.
  intros s a s' Hs E. unfold Mem_rd, lift in E.
  destruct (load U16 _ _) as [v|] eqn:L; [|discriminate].
  injection E as <- <-. split; [exact Hs | exact (load_range_U16 _ _ _ L)].
Qed.

Lemma keeps_Mem_rd (T : ctype) (addr : Z) : keeps (Mem_rd T addr) (fun _ => True).
Proof.
  intros s a s' Hs E. unfold Mem_rd, lift in E.
  destruct (load T _ _); [|discriminate].
  injection E as _ <-. split; [exact Hs | exact I].
Qed.

Lemma keeps_Mem_wr (T : ctype) (addr v : Z) :
  keeps (Mem_wr T addr v) (fun _ => True).
Proof.
  intros s a s' Hs E. unfold Mem_wr in E.
  destruct (store T _ _ _); [|discriminate].
  injection E as _ <-. split; [exact Hs | exact I].
Qed.

Lemma keeps_PStack_rd_U16 (k : Z) : keeps (PStack_rd U16 k) is_uint16.
Proof.
  intros s a s' Hs E. unfold PStack_rd, lift in E.
  destruct (load U16 _ _) as [v|] eqn:L; [|discriminate].
  injection E as <- <-. split; [exact Hs | exact (load_range_U16 _ _ _ L)].
Qed.

Lemma keeps_PStack_rd (T : ctype) (k : Z) : keeps (PStack_rd T k) (fun _ => True).
Proof.
  intros s a s' Hs E. unfold PStack_rd, lift in E.
  destruct (load T _ _); [|discriminate].
  injection E as _ <-. split; [exact Hs | exact I].
Qed.

Lemma keeps_PStack_wr (T : ctype) (k v : Z) :
  keeps (PStack_wr T k v) (fun _ => True).
Proof.
  intros s a s' Hs E. unfold PStack_wr in E.
  destruct (store T _ _ _); [|discriminate].
  injection E as _ <-. split; [exact Hs | exact I].
Qed.

Lemma keeps_RStack_rd_U16 (k : Z) : keeps (RStack_rd U16 k) is_uint16.
Proof.
  intros s a s' Hs E. unfold RStack_rd, lift in E.
  destruct (load U16 _ _) as [v|] eqn:L; [|discriminate].
  injection E as <- <-. split; [exact Hs | exact (load_range_U16 _ _ _ L)].
Qed.

Lemma keeps_RStack_rd (T : ctype) (k : Z) : keeps (RStack_rd T k) (fun _ => True).
Proof.
  intros s a s' Hs E. unfold RStack_rd, lift in E.
  destruct (load T _ _); [|discriminate].
  injection E as _ <-. split; [exact Hs | exact I].
Qed.

Lemma keeps_RStack_wr (T : ctype) (k v : Z) :
  keeps (RStack_wr T k v) (fun _ => True).
Proof.
  intros s a s' Hs E. unfold RStack_wr in E.
  destruct (store T _ _ _); [|discriminate].
  injection E as _ <-. split; [exact Hs | exact I].
Qed.

Lemma keeps_wcin_get : keeps wcin_get (fun _ => True).
Proof.
  intros s a s' Hs E. unfold wcin_get in E.
  destruct (cin s); injection E as _ <-; split; (exact Hs || exact I).
Qed.

Lemma keeps_wcout_put (c : Z) : keeps (wcout_put c) (fun _ => True).
Proof.
  intros s a s' Hs E. unfold wcout_put, modify in E.
  injection E as _ <-. split; [exact Hs | exact I].
Qed.

Ltac keeps_side := first [ exact I | apply to_uint16_range | assumption ].

Ltac keeps_atom :=
  first [ apply keeps_get_IP | apply keeps_get_RSP | apply keeps_get_PSP
        | apply keeps_set_IP; keeps_side
        | apply keeps_set_RSP; keeps_side
        | apply keeps_set_PSP; keeps_side
        | apply keeps_Mem_rd_U16 | apply keeps_Mem_rd | apply keeps_Mem_wr
        | apply keeps_PStack_rd_U16 | apply keeps_PStack_rd
        | apply keeps_PStack_wr
        | apply keeps_RStack_rd_U16 | apply keeps_RStack_rd
        | apply keeps_RStack_wr
        | apply keeps_wcin_get | apply keeps_wcout_put
        | apply keeps_undefined
        | apply keeps_ret; keeps_side ].

Ltac keeps_chain :=
  repeat first
    [ keeps_atom
    | eapply keeps_bind; [ keeps_atom | intros ? ? ]
    | match goal with
      | |- keeps (if ?b then _ else _) _ => destruct b
      end ].

Lemma keeps_PStack_Push (T : ctype) (v : Z) :
  keeps (PStack_Push T v) (fun _ => True).
Proof. unfold PStack_Push. keeps_chain. Qed.

Lemma keeps_RStack_Push (T : ctype) (v : Z) :
  keeps (RStack_Push T v) (fun _ => True).
Proof. unfold RStack_Push. keeps_chain. Qed.

Lemma keeps_PStack_Pop_U16 : keeps (PStack_Pop U16) is_uint16.
Proof. unfold PStack_Pop. keeps_chain. Qed.

Lemma keeps_PStack_Pop (T : ctype) : keeps (PStack_Pop T) (fun _ => True).
Proof. unfold PStack_Pop. keeps_chain. Qed.

Lemma keeps_RStack_Pop_U16 : keeps (RStack_Pop U16) is_uint16.
Proof. unfold RStack_Pop. keeps_chain. Qed.

Lemma keeps_RStack_Pop (T : ctype) : keeps (RStack_Pop T) (fun _ => True).
Proof. unfold RStack_Pop. keeps_chain. Qed.

Ltac keeps_word :=
  repeat first
    [ apply keeps_PStack_Push | apply keeps_RStack_Push
    | apply keeps_PStack_Pop_U16 | apply keeps_PStack_Pop
    | apply keeps_RStack_Pop_U16 | apply keeps_RStack_Pop
    | keeps_atom
    | eapply keeps_bind;
      [ first [ apply keeps_PStack_Push | apply keeps_RStack_Push
              | apply keeps_PStack_Pop_U16 | apply keeps_PStack_Pop
              | apply keeps_RStack_Pop_U16 | apply keeps_RStack_Pop
              | keeps_atom ]
      | intros ? ? ]
    | match goal with
      | |- keeps (if ?b then _ else _) _ => destruct b
      end ].

(** Every native word keeps the registers in range. *)
Lemma NativeFuncs_keep_registers :
  Forall (fun f => keeps f (fun _ => True)) NativeFuncs.
Proof.
  unfold NativeFuncs.
  repeat (apply Forall_cons;
          [ unfold DOCOL, DOCON, DOVAR, EXIT, DROP, SWAP, DUP, ROT, OVER,
              ADD, SUB, MUL, DIVMOD, EQU, LT, AND, OR, XOR, INVERT, LIT,
              STORE, FETCH, STOREBYTE, FETCHBYTE, KEY, EMIT, BRANCH,
              ZBRANCH, TOR, FROMR, ADD_STORE, DSP_FETCH, DSP_STORE,
              RSP_FETCH, RSP_STORE, binop;
            keeps_word |]).
  apply Forall_nil.
Qed.

Lemma keeps_cycle : keeps cycle (fun _ => True).
Proof.
  unfold cycle.
  eapply keeps_bind; [apply keeps_get_IP | intros ip Hip].
  eapply keeps_bind; [apply keeps_Mem_rd_U16 | intros a Ha].
  eapply keeps_bind; [apply keeps_Mem_rd_U16 | intros id Hid].
  eapply keeps_bind; [apply keeps_get_IP | intros ip' Hip'].
  eapply keeps_bind; [apply keeps_set_IP, to_uint16_range | intros [] _].
  unfold call_native.
  destruct (nth_error NativeFuncs (Z.to_nat id)) as [f|] eqn:E;
    [|apply keeps_undefined].
  apply nth_error_In in E.
  exact (proj1 (Forall_forall _ _) NativeFuncs_keep_registers f E).
Qed.

(** X15. The registers stay 16-bit values: from a state whose [IP], [RSP]
    and [PSP] lie in [0, 65536), any number of cycles of the loop, whichever
    native words they dispatch to, leaves all three in that range (as long
    as the behaviour is defined). In particular a stack pointer never goes
    below 0 or past 65535: it wraps. *)
Theorem cycles_keep_registers (n : nat) (s s' : State) :
  regs16 s -> exec (cycles n) s = Some s' -> regs16 s'.
Proof.
  revert s. induction n as [|k IH]; intros s Hs E.
  - cbn in E. injection E as <-. exact Hs.
  - apply exec_Some in E as [[] E]. cbn [cycles] in E.
    apply bind_inv in E as ([] & s1 & E1 & E2).
    destruct (keeps_cycle s tt s1 Hs E1) as [Hs1 _].
    apply (IH s1 Hs1). unfold exec. rewrite E2. reflexivity.
Qed.

Lemma cycles_keep_registers_witness :
  exists s', exec (cycles 2) call_thread_state = Some s' /\ regs16 s'.
Proof.
  eexists. split; [vm_compute; reflexivity|].
  apply (cycles_keep_registers 2 call_thread_state).
  - unfold regs16, is_uint16. simpl. lia.
  - vm_compute. reflexivity.
Defined.

(** ** The binary operators *)

Lemma is_int16_iff (z : Z) : is_int16 z <-> (z / 32768 = 0 \/ z / 32768 = -1).
Proof. unfold is_int16. lia. Qed.

Lemma shiftr15_sign (z : Z) : is_int16 z -> Z.shiftr z 15 = 0 \/ Z.shiftr z 15 = -1.
Proof.
  intros H. rewrite Z.shiftr_div_pow2 by lia.
  change (2 ^ 15) with 32768. apply is_int16_iff, H.
Qed.

Lemma is_int16_of_shiftr15 (z : Z) :
  Z.shiftr z 15 = 0 \/ Z.shiftr z 15 = -1 -> is_int16 z.
Proof.
  rewrite Z.shiftr_div_pow2 by lia. change (2 ^ 15) with 32768.
  apply is_int16_iff.
Qed.

(** The bitwise operations on two signed 16-bit values give a signed 16-bit
    value: the conversion of their result to [int16_t] changes nothing. *)
Lemma bitwise_is_int16 (x y : Z) :
  is_int16 x -> is_int16 y ->
  is_int16 (Z.land x y) /\ is_int16 (Z.lor x y) /\ is_int16 (Z.lxor x y).
Proof.
  intros Hx Hy.
  apply shiftr15_sign in Hx. apply shiftr15_sign in Hy.
  split; [|split]; apply is_int16_of_shiftr15.
  - rewrite Z.shiftr_land. destruct Hx as [-> | ->], Hy as [-> | ->]; auto.
  - rewrite Z.shiftr_lor. destruct Hx as [-> | ->], Hy as [-> | ->]; auto.
  - rewrite Z.shiftr_lxor. destruct Hx as [-> | ->], Hy as [-> | ->]; auto.
Qed.

Lemma PStack_Pop_I16_range (s s1 : State) (v : Z) :
  PStack_Pop I16 s = Some (v, s1) ->
  is_int16 v /\ s1 = set_PSP s (to_uint16 (PSP s - 2)).
Proof.
  rewrite PStack_Pop_eq. change (sizeof I16) with 2.
  destruct (load I16 _ _) as [w|] eqn:L; [|discriminate].
  intros E. injection E as <- <-.
  split; [exact (load_range_I16 _ _ _ L) | reflexivity].
Qed.

(** What every binary operator does, with its frame. *)
Lemma binop_frame (op : Z -> Z -> Z) (s s1 : State) (Value x : Z) :
  PStack_Pop I16 s = Some (Value, s1) ->
  load I16 (Memory s1) (PSP s1 - 2) = Some x ->
  exists s',
    binop op s = Some (tt, s') /\
    PSP s' = to_uint16 (PSP s - 2) /\ IP s' = IP s /\ RSP s' = RSP s /\
    load I16 (Memory s') (PSP s' - 2) = Some (to_int16 (op x Value)) /\
    (forall a, a < PSP s' - 2 \/ PSP s' <= a -> Memory s' a = Memory s a).
Proof.
  intros H1 Hx.
  destruct (PStack_Pop_I16_range _ _ _ H1) as [_ E1].
  pose proof (load_in_bounds _ _ _ _ Hx) as [B1 B2].
  change (PSP s1 - 2) with (PSP s1 + -2) in *.
  eexists. split.
  { unfold binop. rewrite (bind_Some _ _ _ _ _ H1).
    erewrite bind_Some by (apply PStack_rd_eq; [unfold is_int16; lia | exact Hx]).
    apply PStack_wr_eq; [unfold is_int16; lia | assumption..]. }
  cbn [PSP IP RSP Memory set_Memory]. subst s1. cbn [PSP IP RSP Memory set_PSP] in *.
  split; [reflexivity|]. split; [reflexivity|]. split; [reflexivity|].
  split.
  { apply (load_pushed_cell I16 I16); [reflexivity | assumption..]. }
  intros a Ha. apply write_le_outside. simpl. lia.
Qed.

(** X16. The six binary operators: each pops its right operand [Value]
    with [PStack_Pop], replaces the cell [x] then at [PSP - 2] by the
    result, writes no other byte and leaves [IP] and [RSP] alone. [+], [-]
    and [*] store the sum, difference and product wrapped to a signed
    16-bit value; [AND], [OR] and [XOR] store the bitwise result itself,
    which needs no wrapping. *)
Theorem binary_operators (s s1 : State) (Value x : Z) :
  PStack_Pop I16 s = Some (Value, s1) ->
  load I16 (Memory s1) (PSP s1 - 2) = Some x ->
  forall (word : M unit) (result : Z),
    In (word, result)
       [ (ADD, to_int16 (x + Value)); (SUB, to_int16 (x - Value));
         (MUL, to_int16 (x * Value)); (AND, Z.land x Value);
         (OR, Z.lor x Value); (XOR, Z.lxor x Value) ] ->
    exists s',
      word s = Some (tt, s') /\
      PSP s' = to_uint16 (PSP s - 2) /\ IP s' = IP s /\ RSP s' = RSP s /\
      load I16 (Memory s') (PSP s' - 2) = Some result /\
      is_int16 result /\
      (forall a, a < PSP s' - 2 \/ PSP s' <= a -> Memory s' a = Memory s a).
Proof.
  intros Hpop Hx word result Hin.
  destruct (PStack_Pop_I16_range _ _ _ Hpop) as [RV _].
  pose proof (load_range_I16 _ _ _ Hx) as Rx.
  destruct (bitwise_is_int16 x Value Rx RV) as (Rand & Ror & Rxor).
  assert (Gen : forall op, result = to_int16 (op x Value) ->
            exists s',
              binop op s = Some (tt, s') /\
              PSP s' = to_uint16 (PSP s - 2) /\ IP s' = IP s /\ RSP s' = RSP s /\
              load I16 (Memory s') (PSP s' - 2) = Some result /\
              is_int16 result /\
              (forall a, a < PSP s' - 2 \/ PSP s' <= a -> Memory s' a = Memory s a)).
  { intros op ->.
    destruct (binop_frame op s s1 Value x Hpop Hx) as (s' & E & P & I0 & R & L & F).
    exists s'.
    split; [exact E|]. split; [exact P|]. split; [exact I0|].
    split; [exact R|]. split; [exact L|].
    split; [apply to_int16_range | exact F]. }
  cbn [In] in Hin.
  destruct Hin as [E|[E|[E|[E|[E|[E|[]]]]]]]; injection E as <- <-.
  - apply (Gen Z.add). reflexivity.
  - apply (Gen Z.sub). reflexivity.
  - apply (Gen Z.mul). reflexivity.
  - apply (Gen Z.land). symmetry. apply to_int16_id, Rand.
  - apply (Gen Z.lor). symmetry. apply to_int16_id, Ror.
  - apply (Gen Z.lxor). symmetry. apply to_int16_id, Rxor.
Qed.

Lemma binary_operators_witness :
  exists s',
    MUL (mixed_state 300 200) = Some (tt, s') /\
    PSP s' = to_uint16 (PSP (mixed_state 300 200) - 2) /\
    IP s' = IP (mixed_state 300 200) /\ RSP s' = RSP (mixed_state 300 200) /\
    load I16 (Memory s') (PSP s' - 2) = Some (to_int16 (300 * 200)) /\
    is_int16 (to_int16 (300 * 200)) /\
    (forall a, a < PSP s' - 2 \/ PSP s' <= a ->
               Memory s' a = Memory (mixed_state 300 200) a).
Proof.
  apply (binary_operators (mixed_state 300 200)
           (set_PSP (mixed_state 300 200) 4098) 200 300 eq_refl eq_refl
           MUL (to_int16 (300 * 200))).
  cbn [In]. right. right. left. reflexivity.
Defined.

(** ** Copies of cells *)

(** X17. [DUP] pushes a copy of the cell at [PSP - 2] and [OVER] a copy of
    the cell at [PSP - 4]: [PSP] grows by 2 and a pop returns the copied
    cell. With fewer than 2 (for [OVER]: 4) bytes below [PSP] the source
    cell would lie before the start of memory and the word is undefined. *)
Theorem DUP_OVER_copy (s : State) (x y : Z) :
  is_uint16 (PSP s) ->
  load I16 (Memory s) (PSP s - 2) = Some x ->
  load I16 (Memory s) (PSP s - 4) = Some y ->
  (exists s', DUP s = Some (tt, s') /\
              PSP s' = to_uint16 (PSP s + 2) /\ IP s' = IP s /\ RSP s' = RSP s /\
              PStack_Pop I16 s' = Some (x, set_PSP s' (PSP s))) /\
  (exists s', OVER s = Some (tt, s') /\
              PSP s' = to_uint16 (PSP s + 2) /\ IP s' = IP s /\ RSP s' = RSP s /\
              PStack_Pop I16 s' = Some (y, set_PSP s' (PSP s))) /\
  (forall t, PSP t < 2 -> DUP t = None) /\
  (forall t, PSP t < 4 -> OVER t = None).
Proof.
  intros Hp Hx Hy.
  assert (Copy : forall k v, is_int16 k ->
            load I16 (Memory s) (PSP s + k) = Some v ->
            exists s',
              (w <- PStack_rd I16 k ;; PStack_Push I16 w) s = Some (tt, s') /\
              PSP s' = to_uint16 (PSP s + 2) /\ IP s' = IP s /\ RSP s' = RSP s /\
              PStack_Pop I16 s' = Some (v, set_PSP s' (PSP s))).
  { intros k v Hk Hv. exists (PStack_pushed I16 v s).
    split.
    { rewrite (bind_Some _ _ _ _ _ (PStack_rd_eq I16 s k v Hk Hv)).
      apply PStack_Push_eq; [exact Hp | apply doubled_in_bounds; reflexivity]. }
    split; [reflexivity|]. split; [reflexivity|]. split; [reflexivity|].
    apply PStack_push_pop; [reflexivity | | exact Hp].
    apply to_int16_id. exact (load_range_I16 _ _ _ Hv). }
  assert (Under : forall k t, is_int16 k -> PSP t + k < 0 ->
            (w <- PStack_rd I16 k ;; PStack_Push I16 w) t = None).
  { intros k t Hk Hneg. unfold bind, PStack_rd, PStack_index, lift.
    rewrite to_int16_id by exact Hk.
    destruct (load I16 (Memory t) (PSP t + k)) eqn:E; [|reflexivity].
    apply load_in_bounds in E. lia. }
  split; [apply (Copy (-2)); [unfold is_int16; lia | exact Hx]|].
  split; [apply (Copy (-4)); [unfold is_int16; lia | exact Hy]|].
  split; intros t Ht; [apply (Under (-2)) | apply (Under (-4))];
    unfold is_int16; lia.
Qed.

Lemma DUP_OVER_copy_witness :
  exists s', OVER (three_cells 1 2 3) = Some (tt, s') /\
             PSP s' = to_uint16 (PSP (three_cells 1 2 3) + 2) /\
             IP s' = IP (three_cells 1 2 3) /\ RSP s' = RSP (three_cells 1 2 3) /\
             PStack_Pop I16 s' = Some (2, set_PSP s' (PSP (three_cells 1 2 3))).
Proof.
  assert (Hp : is_uint16 (PSP (three_cells 1 2 3)))
    by (unfold is_uint16; simpl; lia).
  exact (proj1 (proj2 (DUP_OVER_copy (three_cells 1 2 3) 3 2 Hp eq_refl eq_refl))).
Defined.

(** ** No check for underflow or overflow *)

(** X18. Neither stack checks its pointer, which wraps modulo 65536. With
    the pointer at 0, a pop, [DROP] and [EXIT] are defined: the pointer
    becomes 65534 and the cell read is the one at the doubled pointer,
    address 65532. With [PSP] at 65534, a push writes at 65532 and leaves
    [PSP] at 0. *)
Theorem stack_pointers_wrap (s : State) (v : Z) :
  is_int16 v ->
  (PSP s = 0 ->
   exists w, load I16 (Memory s) 65532 = Some w /\
             PStack_Pop I16 s = Some (w, set_PSP s 65534) /\
             DROP s = Some (tt, set_PSP s 65534)) /\
  (RSP s = 0 ->
   exists w, load U16 (Memory s) 65532 = Some w /\
             EXIT s = Some (tt, set_IP (set_RSP s 65534) w)) /\
  (PSP s = 65534 ->
   exists s', PStack_Push I16 v s = Some (tt, s') /\
              PSP s' = 0 /\
              load I16 (Memory s') 65532 = Some v /\
              PStack_Pop I16 s' = Some (v, set_PSP s' 65534)).
Proof.
  intros Hv. split; [|split].
  - intros E.
    destruct (load I16 (Memory s) 65532) as [w|] eqn:L.
    2:{ rewrite load_defined in L; [discriminate | lia |].
        change (sizeof I16) with 2. lia. }
    exists w. split; [reflexivity|]. split.
    + rewrite PStack_Pop_eq, E. change (sizeof I16) with 2.
      change (doubled (to_uint16 (0 - 2))) with 65532.
      change (to_uint16 (0 - 2)) with 65534. rewrite L. reflexivity.
    + unfold DROP, bind, get, modify. rewrite E. reflexivity.
  - intros E.
    destruct (load U16 (Memory s) 65532) as [w|] eqn:L.
    2:{ rewrite load_defined in L; [discriminate | lia |].
        change (sizeof U16) with 2. lia. }
    exists w. split; [reflexivity|].
    rewrite (EXIT_eq s w); rewrite E;
      change (to_uint16 (0 - 2)) with 65534; [reflexivity|].
    change (doubled 65534) with 65532. exact L.
  - intros E.
    assert (Hp : is_uint16 (PSP s)) by (rewrite E; unfold is_uint16; lia).
    exists (PStack_pushed I16 v s).
    split; [apply PStack_Push_eq; [exact Hp | apply doubled_in_bounds; reflexivity]|].
    split; [cbn [PSP PStack_pushed]; rewrite E; reflexivity|].
    split.
    + cbn [Memory PStack_pushed]. rewrite E.
      change (doubled 65534) with 65532.
      rewrite load_pushed_cell
        by (try reflexivity; change (sizeof I16) with 2; lia).
      cbn [convert]. rewrite to_int16_id by exact Hv. reflexivity.
    + rewrite <- E. apply PStack_push_pop;
        [reflexivity | apply to_int16_id; exact Hv | exact Hp].
Qed.

Lemma stack_pointers_wrap_witness :
  exists w, load U16 (Memory (initial zero_memory [])) 65532 = Some w /\
            EXIT (initial zero_memory [])
            = Some (tt, set_IP (set_RSP (initial zero_memory []) 65534) w).
Proof.
  assert (Hv : is_int16 0) by (unfold is_int16; lia).
  exact (proj1 (proj2 (stack_pointers_wrap (initial zero_memory []) 0 Hv))
               eq_refl).
Defined.

(** ** Console *)


